(** * pyrel: the context-scoped relation layer over the KURE engine

    A shallow embedding of [pyrel/pyrel.py] (classes [PyrelContext] and
    [Relation]) together with the part of [pyrel/kure.py] it calls.

    - Python values that reach the API are a small inductive type [pyval].
    - The KURE C library is an external collaborator: it is an interface
      ([kure.Engine]) that every method is generic in.  A reference engine
      (bit matrices) instantiates it where a statement needs the engine's
      semantics.
    - Methods are computations in a state-and-exception monad over a [world]:
      the engine state, the log of engine calls made so far, and the store of
      [PyrelContext] objects (which relations alias through their
      back-reference).  A raised exception keeps the state reached so far, as
      in Python.
    - [__str__] is left out; the finalizers are plain functions. *)

From Stdlib Require Import ZArith String SpecFloat Lia Sorted.
From stdpp Require Import base option list gmap.

#[local] Set Warnings "-register-all".

#[local] Open Scope Z_scope.

(** ** Python values *)

Module Relation.
  (** Attributes of a [Relation] object.  They are assigned once, in
      [__init__], and never reassigned.  [context] is the identity of the
      owning [PyrelContext] object (a reference, not a copy); [rel] is the
      [KureRel*] pointer. *)
Record t : Type := Build
    { context : N; ref : Z; rel : N; rows : Z; cols : Z }.
End Relation.

Inductive pyval : Type :=
| PyNone
| PyBool (b : bool)
| PyInt (z : Z)
| PyFloat (f : spec_float)
| PyStr (s : string)
| PyTuple (items : list pyval)
| PyList (items : list pyval)
| PyRel (r : Relation.t).

(** [type(v) == int]: exactly [int]; [bool] is a subclass and does not pass. *)
Definition type_is_int (v : pyval) : bool :=
  match v with PyInt _ => true | _ => false end.

(** [isinstance(v, float)]. *)
Definition isinstance_float (v : pyval) : bool :=
  match v with PyFloat _ => true | _ => false end.

(** [type(v) != Relation] negated, and [isinstance(v, self.__class__)]: there
    is no subclass of [Relation], so both are the same test. *)
Definition isinstance_Relation (v : pyval) : bool :=
  match v with PyRel _ => true | _ => false end.

(** Truth value of an object, as [if bits:] takes it. *)
Definition truthy (v : pyval) : bool :=
  match v with
  | PyNone => false
  | PyBool b => b
  | PyInt z => negb (z =? 0)
  | PyFloat f => negb (SFeqb f (S754_zero false))
  | PyStr s => negb (String.length s =? 0)%nat
  | PyTuple l | PyList l => negb (length l =? 0)%nat
  | PyRel _ => true
  end.

Fixpoint chars (s : string) : list pyval :=
  match s with
  | EmptyString => []
  | String a s' => PyStr (String a EmptyString) :: chars s'
  end.

(** [iter(v)]: the items of an iterable, [None] when [v] is not iterable
    (Python raises [TypeError]). *)
Definition py_iter (v : pyval) : option (list pyval) :=
  match v with
  | PyTuple l | PyList l => Some l
  | PyStr s => Some (chars s)
  | _ => None
  end.

(** ** ctypes conversions *)

(** A C [int]: the value wraps into 32 bits, ctypes does no overflow check. *)
Definition c_int (z : Z) : Z := (z + 2 ^ 31) mod 2 ^ 32 - 2 ^ 31.
#[global] Arguments c_int : simpl never.

(** Conversion of an argument declared [ctypes.c_int] in a prototype:
    integers (and [bool], a subclass) are taken and wrapped, anything else is
    refused by ctypes with [ctypes.ArgumentError]. *)
Definition as_c_int (v : pyval) : option Z :=
  match v with
  | PyInt z => Some (c_int z)
  | PyBool b => Some (Z.b2z b)
  | _ => None
  end.

(** [c_float(x)]: a Python float (binary64) narrowed to a C [float]
    (binary32), round to nearest even. *)
Definition c_float (x : spec_float) : spec_float :=
  match x with
  | S754_finite s m e => binary_round 24 128 s m e
  | other => other
  end.

(** The float literals of the source. *)
Definition float_0_0 : spec_float := S754_zero false.
Definition float_1_0 : spec_float := S754_finite false 4503599627370496 (-52).

(** [a > b] on floats: false whenever one side is NaN. *)
Definition float_gt (a b : spec_float) : bool := SFltb b a.

(** [min(a, b)] of the builtin: [b] if [b < a], else [a]. *)
Definition py_min (a b : spec_float) : spec_float :=
  if SFltb b a then b else a.

(** ** Exceptions *)

Inductive exn : Type :=
| PyrelException (msg : string) (code : option Z)
| TypeError
| ValueError
| AttributeError
| ArgumentError        (* ctypes.ArgumentError, a direct subclass of Exception *)
| ReferenceError.      (* a reference to an object that is not in the store *)

(** The error kinds of the specification, by the raise site that produces
    them.  An engine error carries the code read from the manager's last-error
    record; the locally raised ones carry none.  The source has no raise site
    for a context mismatch. *)
Definition InvalidDimension : exn := PyrelException "Invalid dimension." None.
Definition TypeMismatch : exn := PyrelException "argument type must be relation" None.
Definition InvalidBitPair : exn := PyrelException "Invalid (row, col) bit pair." None.
Definition InvalidArgument : exn :=
  PyrelException "Invalid argument. Prob must be a float                 between 0.0 and 1.0." None.
Definition InvalidVectorArg : exn := PyrelException "Invalid vector arg. Must be int." None.
Definition EngineError (msg : string) (code : Z) : exn := PyrelException msg (Some code).

Definition is_EngineError (e : exn) : bool :=
  match e with PyrelException _ (Some _) => true | _ => false end.

(** ** The KURE interface of [pyrel/kure.py] *)

Module kure.
  (** The prototypes bound by [wrap_func].  Pointers ([KureContext*],
      [KureRel*]) are addresses, [0] is [NULL]; a [c_char] result is the byte
      it holds. *)
Inductive call : Type :=
  | _context_new
  | _context_destroy (context : N)
  | _rel_new_with_size_si (context : N) (rows cols : Z)
  | _rel_new_copy (R : N)
  | _rel_destroy (self : N)
  | _rel_get_rows_si (self : N)
  | _rel_get_cols_si (self : N)
  | _set_bit_si (R : N) (yesno : N) (row col : Z)
  | _random_simple (R : N) (prob : spec_float)
  | _empty (R : N)
  | _universal (R : N)
  | _identity (R : N)
  | _or (rop arg1 arg2 : N)
  | _and (rop arg1 arg2 : N)
  | _transpose (rop arg : N)
  | _complement (rop arg : N)
  | _composition (rop arg1 arg2 : N)
  | _equals (R S : N)
  | _includes (R S : N)
  | _is_empty (R : N)
  | _vec_begin_full_si (v : N) (rows cols : Z)
  | _vec_next (v arg : N).

  (** Result type of each prototype.  The comparisons also write one byte
      through their [psuccess] argument: the pair is (result, byte written). *)
Definition ret (c : call) : Type :=
    match c with
    | _context_new | _rel_new_with_size_si _ _ _ | _rel_new_copy _ => N
    | _context_destroy _ | _rel_destroy _ => unit
    | _rel_get_rows_si _ | _rel_get_cols_si _ => Z
    | _equals _ _ | _includes _ _ | _is_empty _ => (N * N)%type
    | _ => N
    end.

Definition Kure_True : N := 1%N.
Definition Kure_False : N := 0%N.

  (** The engine: a state, a transition for each call, and the last-error
      record reachable from a context ([context->error], read by the wrapper
      as plain memory, not through a call).  [error] is [None] when a pointer
      on the way is [NULL]; the message is [None] when the [char*] is. *)
Class Engine : Type :=
    { state : Type;
      exec : forall c : call, state -> ret c * state;
      error : N -> state -> option (option string * Z) }.
End kure.

(** ** The store and the monad *)

Module PyrelContext.
  (** Attributes of a [PyrelContext]: the [KureContext*], the reference
      counter, and the [relations] dict, kept in insertion order. *)
Record t : Type := Build
    { _context : N; ref : Z; relations : list (Z * N) }.
End PyrelContext.

Section Store.
Context {K : kure.Engine}.

Record world : Type := World
  { engine : kure.state;
    calls : list kure.call;
    objects : gmap N PyrelContext.t;
    next_id : N }.

Inductive result (A : Type) : Type :=
| Ok (a : A)
| Raise (e : exn).
#[global] Arguments Ok {A} a.
#[global] Arguments Raise {A} e.

Definition py (A : Type) : Type := world -> result A * world.

#[export] Instance py_ret : MRet py := fun A a w => (Ok a, w).
#[export] Instance py_bind : MBind py := fun A B f m w =>
  match m w with
  | (Ok a, w') => f a w'
  | (Raise e, w') => (Raise e, w')
  end.

Definition raise {A} (e : exn) : py A := fun w => (Raise e, w).

(** [try: m except (TypeError, ValueError): h]. *)
Definition try_except {A} (m : py A) (handles : exn -> bool) (h : py A) : py A :=
  fun w =>
    match m w with
    | (Raise e, w') => if handles e then h w' else (Raise e, w')
    | r => r
    end.

(** One call into the library: logged, then executed by the engine. *)
Definition call (c : kure.call) : py (kure.ret c) := fun w =>
  let '(r, s) := kure.exec c (engine w) in
  (Ok r, World s (calls w ++ [c]) (objects w) (next_id w)).

(** Reading an attribute of a context object. *)
Definition get_context (id : N) : py PyrelContext.t := fun w =>
  match objects w !! id with
  | Some c => (Ok c, w)
  | None => (Raise ReferenceError, w)
  end.

Definition set_context (id : N) (c : PyrelContext.t) : py unit := fun w =>
  (Ok tt, World (engine w) (calls w) (<[id := c]> (objects w)) (next_id w)).

(** A new context object: a fresh identity in the store. *)
Definition new_object (c : PyrelContext.t) : py N := fun w =>
  let id := next_id w in
  (Ok id, World (engine w) (calls w) (<[id := c]> (objects w)) (N.succ id)).

(** Reading the engine's memory through a ctypes structure, without a call. *)
Definition peek {A} (f : kure.state -> A) : py A := fun w => (Ok (f (engine w)), w).

End Store.

(** ** [pyrel/pyrel.py] *)

Module pyrel.
Section Methods.
Context {K : kure.Engine}.

(** *** The [relations] dict: reference number to [KureRel*] *)

Fixpoint dict_get (k : Z) (d : list (Z * N)) : option N :=
  match d with
  | [] => None
  | (k', v) :: d' => if k' =? k then Some v else dict_get k d'
  end.

(** [d[k] = v]: an existing key keeps its position, a new one goes last. *)
Fixpoint dict_set (k : Z) (v : N) (d : list (Z * N)) : list (Z * N) :=
  match d with
  | [] => [(k, v)]
  | (k', v') :: d' =>
      if k' =? k then (k, v) :: d' else (k', v') :: dict_set k v d'
  end.

(** [del d[k]]. *)
Fixpoint dict_del (k : Z) (d : list (Z * N)) : list (Z * N) :=
  match d with
  | [] => []
  | (k', v') :: d' => if k' =? k then d' else (k', v') :: dict_del k d'
  end.

(** [d.popitem()]: the pair inserted last, and what is left. *)
Definition dict_popitem (d : list (Z * N)) : option ((Z * N) * list (Z * N)) :=
  match rev d with
  | [] => None
  | kv :: r => Some (kv, rev r)
  end.

Definition keys (d : list (Z * N)) : list Z := fst <$> d.

(** [bool(ord(c))] of a [c_char] result. *)
Definition bool_ord (c : N) : bool := negb (c =? 0)%N.

(** Truth value of a [c_char] result taken as it is returned: a [bytes] of
    length one, which is never empty. *)
Definition bytes1_truthy (c : N) : bool := true.

(** *** PyrelContext.__init__ *)
Definition PyrelContext__init__ : py N :=
  _context ← call kure._context_new;
  new_object (PyrelContext.Build _context 0 []).

(** *** Relation.__init__ *)
Definition Relation__init__ (context : N) (ref : Z) (rel : N) : py Relation.t :=
  rows ← call (kure._rel_get_rows_si rel);
  cols ← call (kure._rel_get_cols_si rel);
  mret (Relation.Build context ref rel rows cols).

(** *** Relation._is_relation *)
Definition _is_relation (self : Relation.t) (arg : pyval) : py bool :=
  if negb (isinstance_Relation arg) then raise TypeMismatch else mret true.

(** [other.rel], once [other] is known to be a [Relation]. *)
Definition attr_rel (other : pyval) : py N :=
  match other with
  | PyRel r => mret (Relation.rel r)
  | _ => raise AttributeError
  end.

(** *** Relation._kure_error *)
Definition _kure_error {A} (self : Relation.t) : py A :=
  ctx ← get_context (Relation.context self);
  err ← peek (kure.error (PyrelContext._context ctx));
  match err with
  | None => raise ValueError                       (* NULL pointer access *)
  | Some (None, _) => raise AttributeError         (* None.decode *)
  | Some (Some msg, code) => raise (PyrelException msg (Some code))
  end.

(** *** Relation.is_empty *)
Definition is_empty (self : Relation.t) : py bool :=
  r ← call (kure._is_empty (Relation.rel self));
  if (r.1 =? kure.Kure_True)%N then mret true
  else if (r.1 =? kure.Kure_False)%N then mret false
  else raise AttributeError.                        (* self._error() *)

(** *** Relation.set_bit *)
Definition set_bit (self : Relation.t) (row col : pyval) (yesno : bool) : py unit :=
  let kure_yesno := if yesno then kure.Kure_True else kure.Kure_False in
  match as_c_int row, as_c_int col with
  | Some r, Some c =>
      ok ← call (kure._set_bit_si (Relation.rel self) kure_yesno r c);
      if negb (bool_ord ok) then _kure_error self else mret tt
  | _, _ => raise ArgumentError
  end.

(** *** Relation.set_bits *)
Fixpoint set_bits_loop (self : Relation.t) (items : list pyval) (yesno : bool)
  : py unit :=
  match items with
  | [] => mret tt
  | item :: rest =>
      match py_iter item with
      | None => raise TypeError                      (* cannot unpack *)
      | Some [row; col] =>
          set_bit self row col yesno;;
          set_bits_loop self rest yesno
      | Some _ => raise ValueError                   (* too many / not enough values *)
      end
  end.

Definition handles_TypeError_ValueError (e : exn) : bool :=
  match e with TypeError | ValueError => true | _ => false end.

Definition set_bits (self : Relation.t) (bits : pyval) (yesno : bool) : py unit :=
  try_except
    (match py_iter bits with
     | None => raise TypeError
     | Some items => set_bits_loop self items yesno
     end)
    handles_TypeError_ValueError
    (raise InvalidBitPair).

(** *** PyrelContext.new *)
Definition isValidDimension (rows cols : pyval) : bool :=
  match rows, cols with
  | PyInt r, PyInt c => (r =? 0) && (c =? 0) || (0 <? r) && (0 <? c)
  | _, _ => false
  end.

Definition int_value (v : pyval) : Z :=
  match v with PyInt z => z | PyBool b => Z.b2z b | _ => 0 end.

Definition new (self : N) (rows cols bits : pyval) : py Relation.t :=
  if negb (isValidDimension rows cols) then raise InvalidDimension else
  ctx ← get_context self;
  rel ← call (kure._rel_new_with_size_si (PyrelContext._context ctx)
                (c_int (int_value rows)) (c_int (int_value cols)));
  ctx ← get_context self;
  let ref := PyrelContext.ref ctx + 1 in
  set_context self
    (PyrelContext.Build (PyrelContext._context ctx) ref
       (dict_set ref rel (PyrelContext.relations ctx)));;
  relation ← Relation__init__ self ref rel;
  if truthy bits then set_bits relation bits true;; mret relation
  else mret relation.

(** *** PyrelContext._add *)
Definition _add (self : N) (rel : N) : py Z :=
  ctx ← get_context self;
  let ref := PyrelContext.ref ctx + 1 in
  set_context self
    (PyrelContext.Build (PyrelContext._context ctx) ref
       (dict_set ref rel (PyrelContext.relations ctx)));;
  mret ref.

(** *** PyrelContext.delete *)
Definition delete (self : N) (toDelete : Relation.t + Z) : py unit :=
  let toDelete := match toDelete with inl r => Relation.ref r | inr n => n end in
  ctx ← get_context self;
  match dict_get toDelete (PyrelContext.relations ctx) with
  | Some rel =>
      if negb (rel =? 0)%N then
        call (kure._rel_destroy rel);;
        ctx ← get_context self;
        set_context self
          (PyrelContext.Build (PyrelContext._context ctx) (PyrelContext.ref ctx)
             (dict_del toDelete (PyrelContext.relations ctx)))
      else mret tt
  | None => mret tt
  end.

(** *** PyrelContext.clean *)
Fixpoint clean_loop (fuel : nat) (self : N) : py unit :=
  ctx ← get_context self;
  match dict_popitem (PyrelContext.relations ctx) with
  | None => mret tt
  | Some ((_, rel), rest) =>
      set_context self
        (PyrelContext.Build (PyrelContext._context ctx) (PyrelContext.ref ctx) rest);;
      call (kure._rel_destroy rel);;
      match fuel with
      | O => mret tt
      | S fuel' => clean_loop fuel' self
      end
  end.

Definition clean (self : N) : py unit :=
  ctx ← get_context self;
  clean_loop (length (PyrelContext.relations ctx)) self.

(** *** PyrelContext.__del__ and Relation.__del__

    The finalizers, as functions: when the interpreter runs them is not part
    of the model. *)
Definition PyrelContext__del__ (self : N) : py unit :=
  clean self;;
  ctx ← get_context self;
  call (kure._context_destroy (PyrelContext._context ctx));;
  set_context self
    (PyrelContext.Build 0 (PyrelContext.ref ctx) (PyrelContext.relations ctx)).

Definition Relation__del__ (self : Relation.t) : py unit :=
  delete (Relation.context self) (inr (Relation.ref self)).

(** *** Relation.copy *)
Definition copy (self : Relation.t) : py Relation.t :=
  rel ← call (kure._rel_new_copy (Relation.rel self));
  if negb (rel =? 0)%N then
    ref ← _add (Relation.context self) rel;
    Relation__init__ (Relation.context self) ref rel
  else _kure_error self.

(** *** Relation.clear *)
Definition clear (self : Relation.t) : py unit :=
  success ← call (kure._empty (Relation.rel self));
  if negb (bool_ord success) then _kure_error self else mret tt.

(** *** Relation.random *)
Definition random (self : Relation.t) (prob : pyval) : py unit :=
  clear self;;
  match prob with
  | PyFloat p =>
      if float_gt p float_0_0 then
        let prob := py_min float_1_0 p in
        success ← call (kure._random_simple (Relation.rel self) (c_float prob));
        if negb (bytes1_truthy success) then _kure_error self else mret tt
      else raise InvalidArgument
  | _ => raise InvalidArgument
  end.

(** *** Relation.empty *)
Definition empty (self : Relation.t) : py Relation.t :=
  result ← new (Relation.context self)
             (PyInt (Relation.rows self)) (PyInt (Relation.cols self)) PyNone;
  success ← call (kure._empty (Relation.rel result));
  if bool_ord success then mret result else _kure_error self.

(** *** Relation.universal *)
Definition universal (self : Relation.t) : py Relation.t :=
  result ← new (Relation.context self)
             (PyInt (Relation.rows self)) (PyInt (Relation.cols self)) PyNone;
  success ← call (kure._universal (Relation.rel result));
  if bool_ord success then mret result else _kure_error self.

(** *** Relation.identity *)
Definition identity (self : Relation.t) : py Relation.t :=
  result ← new (Relation.context self)
             (PyInt (Relation.rows self)) (PyInt (Relation.cols self)) PyNone;
  success ← call (kure._identity (Relation.rel result));
  if bool_ord success then mret result else _kure_error self.

(** *** Relation.meet *)
Definition meet (self : Relation.t) (other : pyval) : py Relation.t :=
  _is_relation self other;;
  result ← new (Relation.context self)
             (PyInt (Relation.rows self)) (PyInt (Relation.cols self)) PyNone;
  other_rel ← attr_rel other;
  success ← call (kure._and (Relation.rel result) (Relation.rel self) other_rel);
  if bool_ord success then mret result else _kure_error self.

(** *** Relation.join *)
Definition join (self : Relation.t) (other : pyval) : py Relation.t :=
  _is_relation self other;;
  result ← new (Relation.context self)
             (PyInt (Relation.rows self)) (PyInt (Relation.cols self)) PyNone;
  other_rel ← attr_rel other;
  success ← call (kure._or (Relation.rel result) (Relation.rel self) other_rel);
  if bool_ord success then mret result else _kure_error self.

(** *** Relation.transpose *)
Definition transpose (self : Relation.t) : py Relation.t :=
  result ← new (Relation.context self)
             (PyInt (Relation.rows self)) (PyInt (Relation.cols self)) PyNone;
  success ← call (kure._transpose (Relation.rel result) (Relation.rel self));
  if bool_ord success then mret result else _kure_error self.

(** *** Relation.complement *)
Definition complement (self : Relation.t) : py Relation.t :=
  result ← new (Relation.context self)
             (PyInt (Relation.rows self)) (PyInt (Relation.cols self)) PyNone;
  success ← call (kure._complement (Relation.rel result) (Relation.rel self));
  if bool_ord success then mret result else _kure_error self.

(** *** Relation.composition *)
Definition composition (self : Relation.t) (other : pyval) : py Relation.t :=
  _is_relation self other;;
  result ← new (Relation.context self)
             (PyInt (Relation.rows self)) (PyInt (Relation.cols self)) PyNone;
  other_rel ← attr_rel other;
  success ← call (kure._composition (Relation.rel result) (Relation.rel self) other_rel);
  if bool_ord success then mret result else _kure_error self.

(** *** Relation.equals *)
Definition equals (self : Relation.t) (other : pyval) : py bool :=
  _is_relation self other;;
  other_rel ← attr_rel other;
  r ← call (kure._equals (Relation.rel self) other_rel);
  let result := bool_ord r.1 in
  let psuccess := bool_ord r.2 in          (* psuccess.value is non-empty *)
  if psuccess then mret result else _kure_error self.

(** *** Relation.notEquals *)
Definition notEquals (self : Relation.t) (other : pyval) : py bool :=
  b ← equals self other; mret (negb b).

(** *** Relation.isSuperset *)
Definition isSuperset (self : Relation.t) (other : pyval) : py bool :=
  _is_relation self other;;
  other_rel ← attr_rel other;
  r ← call (kure._includes other_rel (Relation.rel self));
  let result := bool_ord r.1 in
  let psuccess := bool_ord r.2 in          (* psuccess.value is non-empty *)
  if psuccess then mret result else _kure_error self.

(** *** Relation.isSubset *)
Definition isSubset (self : Relation.t) (other : pyval) : py bool :=
  _is_relation self other;;
  other_rel ← attr_rel other;
  r ← call (kure._includes (Relation.rel self) other_rel);
  let result := bool_ord r.1 in
  let psuccess := bool_ord r.2 in          (* psuccess.value is non-empty *)
  if psuccess then mret result else _kure_error self.

(** *** Relation.isStrictSuperset *)
Definition isStrictSuperset (self : Relation.t) (other : pyval) : py bool :=
  _is_relation self other;;
  a ← isSuperset self other;
  if a : bool then b ← equals self other; mret (negb b) else mret false.

(** *** Relation.isStrictSubset *)
Definition isStrictSubset (self : Relation.t) (other : pyval) : py bool :=
  _is_relation self other;;
  a ← isSubset self other;
  if a : bool then b ← equals self other; mret (negb b) else mret false.

(** *** Relation.vector_next *)
Fixpoint vector_next_loop (self : Relation.t) (n : nat) : py unit :=
  match n with
  | O => mret tt
  | S n' =>
      success ← call (kure._vec_next (Relation.rel self) (Relation.rel self));
      if negb (bool_ord success) then _kure_error self
      else vector_next_loop self n'
  end.

Definition vector_next (self : Relation.t) (increment : Z) : py unit :=
  vector_next_loop self (Z.to_nat increment).       (* range(increment) *)

(** *** Relation.vector *)
Definition vector (self : Relation.t) (vector : pyval) : py unit :=
  if negb (type_is_int vector) then raise InvalidVectorArg else
  success ← call (kure._vec_begin_full_si (Relation.rel self)
                    (c_int (Relation.rows self)) (c_int (Relation.cols self)));
  (if negb (bool_ord success) then _kure_error self else mret tt);;
  vector_next self (int_value vector).

(** *** Relation.__eq__ and Relation.__ne__ *)
Definition __eq__ (self : Relation.t) (other : pyval) : py bool :=
  if negb (isinstance_Relation other) then mret false
  else equals self other.

Definition __ne__ (self : Relation.t) (other : pyval) : py bool :=
  b ← __eq__ self other; mret (negb b).

End Methods.
End pyrel.

(** ** A reference engine *)

Module Kure2.

(** Modelled from the spec: the Diagram Engine (the KURE C library, fetched
    and built by [build_kure.py], with no source in the repository).  Section
    6 of the specification gives its capabilities and the table of section
    4.2 the meaning of each operation; a relation is its dimensions and its
    bit matrix, and every operation that writes into a caller-supplied handle
    assigns it the dimensions and the bits of the result.  Dimensions are
    taken as they are given.  A call on an address that holds nothing fails
    (or returns [NULL], or 0 for a dimension) and records no error; a call
    that fails on live operands records one in the manager of its first
    argument.  [includes(R, S)] is inclusion of [R] in [S], the direction
    [isSubset] and its tests rely on.  The two vector calls enumerate unit
    vectors by row; no statement below depends on them. *)
Record rel : Type := Rel
  { r_context : N; r_rows : Z; r_cols : Z; r_bit : Z -> Z -> bool }.

(** Modelled from the spec: a manager, with its last-error slot and the
    source of randomness of its randomized fill. *)
Record ctx : Type := Ctx
  { c_error : option (option string * Z);
    c_random : spec_float -> Z -> Z -> bool }.

Record state : Type := State
  { next : N; contexts : gmap N ctx; rels : gmap N rel }.

(** No manager, no relation; address [0] is never handed out. *)
Definition init : state := State 1 ∅ ∅.

Definition in_range (r : rel) (row col : Z) : bool :=
  (0 <=? row) && (row <? r_rows r) && (0 <=? col) && (col <? r_cols r).

Definition same_dim (a b : rel) : bool :=
  (r_rows a =? r_rows b) && (r_cols a =? r_cols b).

(** A property of every bit of a pair of matrices of the same dimensions. *)
Definition all_bits (rows cols : Z) (p : Z -> Z -> bool) : bool :=
  forallb (fun i => forallb (fun j => p i j) (seqZ 0 cols)) (seqZ 0 rows).

(** Recording a failure in a manager's last-error slot. *)
Definition set_error (c : N) (msg : string) (code : Z) (s : state) : state :=
  match contexts s !! c with
  | Some x =>
      State (next s) (<[c := Ctx (Some (Some msg, code)) (c_random x)]> (contexts s))
        (rels s)
  | None => s
  end.

Definition put (p : N) (r : rel) (s : state) : state :=
  State (next s) (contexts s) (<[p := r]> (rels s)).

Definition context_new (s : state) : N * state :=
  (next s,
   State (N.succ (next s))
     (<[next s := Ctx None (fun p _ _ => SFleb float_1_0 p)]> (contexts s))
     (rels s)).

Definition context_destroy (c : N) (s : state) : unit * state :=
  (tt, State (next s) (base.delete c (contexts s)) (rels s)).

Definition rel_new_with_size_si (c : N) (rows cols : Z) (s : state) : N * state :=
  match contexts s !! c with
  | Some _ =>
      (next s,
       State (N.succ (next s)) (contexts s)
         (<[next s := Rel c rows cols (fun _ _ => false)]> (rels s)))
  | None => (0%N, s)
  end.

Definition rel_new_copy (p : N) (s : state) : N * state :=
  match rels s !! p with
  | Some r =>
      (next s, State (N.succ (next s)) (contexts s) (<[next s := r]> (rels s)))
  | None => (0%N, s)
  end.

Definition rel_destroy (p : N) (s : state) : unit * state :=
  (tt, State (next s) (contexts s) (base.delete p (rels s))).

Definition rel_get_rows_si (p : N) (s : state) : Z * state :=
  (match rels s !! p with Some r => r_rows r | None => 0 end, s).

Definition rel_get_cols_si (p : N) (s : state) : Z * state :=
  (match rels s !! p with Some r => r_cols r | None => 0 end, s).

Definition set_bit_si (p : N) (yesno : N) (row col : Z) (s : state) : N * state :=
  match rels s !! p with
  | Some r =>
      if in_range r row col then
        (kure.Kure_True,
         put p (Rel (r_context r) (r_rows r) (r_cols r)
                  (fun i j => if (i =? row) && (j =? col)
                              then negb (yesno =? 0)%N else r_bit r i j)) s)
      else (kure.Kure_False, set_error (r_context r) "Coordinates out of range." 1 s)
  | None => (kure.Kure_False, s)
  end.

(** An operation that overwrites one relation in place. *)
Definition in_place (p : N) (f : rel -> ctx -> rel) (s : state) : N * state :=
  match rels s !! p with
  | Some r =>
      match contexts s !! r_context r with
      | Some c => (kure.Kure_True, put p (f r c) s)
      | None => (kure.Kure_False, s)
      end
  | None => (kure.Kure_False, s)
  end.

Definition with_bits (r : rel) (b : Z -> Z -> bool) : rel :=
  Rel (r_context r) (r_rows r) (r_cols r) b.

(** An operation of one argument writing into [rop]. *)
Definition unary (rop arg : N) (f : rel -> rel) (s : state) : N * state :=
  match rels s !! rop, rels s !! arg with
  | Some o, Some a =>
      if (r_context o =? r_context a)%N then (kure.Kure_True, put rop (f a) s)
      else (kure.Kure_False,
            set_error (r_context a) "Relations belong to different contexts." 2 s)
  | _, _ => (kure.Kure_False, s)
  end.

(** An operation of two arguments writing into [rop]; [ok] is its dimension
    rule. *)
Definition binary (rop arg1 arg2 : N) (ok : rel -> rel -> bool)
    (f : rel -> rel -> rel) (s : state) : N * state :=
  match rels s !! rop, rels s !! arg1, rels s !! arg2 with
  | Some o, Some a, Some b =>
      if (r_context o =? r_context a)%N && (r_context a =? r_context b)%N then
        if ok a b then (kure.Kure_True, put rop (f a b) s)
        else (kure.Kure_False,
              set_error (r_context a) "Incompatible dimensions." 3 s)
      else (kure.Kure_False,
            set_error (r_context a) "Relations belong to different contexts." 2 s)
  | _, _, _ => (kure.Kure_False, s)
  end.

(** A comparison: the value and the byte written through [psuccess]. *)
Definition compare (p q : N) (f : rel -> rel -> bool) (s : state) : (N * N) * state :=
  match rels s !! p, rels s !! q with
  | Some a, Some b =>
      if (r_context a =? r_context b)%N then
        if same_dim a b then
          ((if f a b then kure.Kure_True else kure.Kure_False, kure.Kure_True), s)
        else ((kure.Kure_False, kure.Kure_False),
              set_error (r_context a) "Incompatible dimensions." 3 s)
      else ((kure.Kure_False, kure.Kure_False),
            set_error (r_context a) "Relations belong to different contexts." 2 s)
  | _, _ => ((kure.Kure_False, kure.Kure_False), s)
  end.

Definition mult_bit (a b : rel) (i k : Z) : bool :=
  existsb (fun j => r_bit a i j && r_bit b j k) (seqZ 0 (r_cols a)).

Definition exec (c : kure.call) : state -> kure.ret c * state :=
  match c as c0 return state -> kure.ret c0 * state with
  | kure._context_new => context_new
  | kure._context_destroy c => context_destroy c
  | kure._rel_new_with_size_si c rows cols => rel_new_with_size_si c rows cols
  | kure._rel_new_copy p => rel_new_copy p
  | kure._rel_destroy p => rel_destroy p
  | kure._rel_get_rows_si p => rel_get_rows_si p
  | kure._rel_get_cols_si p => rel_get_cols_si p
  | kure._set_bit_si p yesno row col => set_bit_si p yesno row col
  | kure._random_simple p prob =>
      in_place p (fun r c => with_bits r (c_random c prob))
  | kure._empty p => in_place p (fun r _ => with_bits r (fun _ _ => false))
  | kure._universal p => in_place p (fun r _ => with_bits r (fun _ _ => true))
  | kure._identity p => in_place p (fun r _ => with_bits r (fun i j => i =? j))
  | kure._or rop a b =>
      binary rop a b same_dim
        (fun a b => with_bits a (fun i j => r_bit a i j || r_bit b i j))
  | kure._and rop a b =>
      binary rop a b same_dim
        (fun a b => with_bits a (fun i j => r_bit a i j && r_bit b i j))
  | kure._transpose rop a =>
      unary rop a
        (fun a => Rel (r_context a) (r_cols a) (r_rows a) (fun i j => r_bit a j i))
  | kure._complement rop a =>
      unary rop a (fun a => with_bits a (fun i j => negb (r_bit a i j)))
  | kure._composition rop a b =>
      binary rop a b (fun a b => r_cols a =? r_rows b)
        (fun a b => Rel (r_context a) (r_rows a) (r_cols b) (mult_bit a b))
  | kure._equals p q =>
      compare p q
        (fun a b => all_bits (r_rows a) (r_cols a)
                      (fun i j => Bool.eqb (r_bit a i j) (r_bit b i j)))
  | kure._includes p q =>
      compare p q
        (fun a b => all_bits (r_rows a) (r_cols a)
                      (fun i j => implb (r_bit a i j) (r_bit b i j)))
  | kure._is_empty p =>
      compare p p
        (fun a _ => all_bits (r_rows a) (r_cols a) (fun i j => negb (r_bit a i j)))
  | kure._vec_begin_full_si p rows cols =>
      in_place p
        (fun r _ => Rel (r_context r) rows cols (fun i j => (i =? 0) && (j =? 0)))
  | kure._vec_next rop a =>
      unary rop a (fun a => with_bits a (fun i j => r_bit a (i - 1) j))
  end.

Definition error (c : N) (s : state) : option (option string * Z) :=
  match contexts s !! c with
  | Some x => c_error x
  | None => None
  end.

#[export] Instance engine : kure.Engine :=
  {| kure.state := state; kure.exec := exec; kure.error := error |}.

End Kure2.

(** ** [PyrelException.__str__] *)

(** [s[:-1]]: the string without its last character. *)
Definition drop_last (s : string) : string :=
  substring 0 (String.length s - 1) s.

(** ["{}: {}.".format(self.__class__.__name__, self.msg)[:-1]] *)
Definition PyrelException__str__ (msg : string) : string :=
  drop_last (String.append "PyrelException"
               (String.append ": " (String.append msg "."))).

(** ** [wrap_func] of [pyrel/kure.py] *)

(** The ctypes types the prototypes are declared with. *)
Inductive ctype : Type :=
| C_void_p | C_int | C_char | C_char_p | C_float | C_context_p | C_rel_p.

(** A parameter declaration: a tuple of which [wrap_func] reads the first
    two components, the name ([None] for the context constructor) and the
    type; what follows (the 2 of [psuccess] in [_get_bit_si]) is not read. *)
Record param : Type := Param
  { p_name : option string; p_type : ctype; p_more : list Z }.

(** The two lists [wrap_func] builds before it calls [ctypes.CFUNCTYPE]:
    [atypes], with [None] alone when there is no parameter, and [aflags],
    a direction and a name for each parameter.  The loop appends. *)
Definition wrap_func_lists (args : list param)
  : list (option ctype) * list (Z * option string) :=
  match args with
  | [] => ([None], [])
  | _ =>
      fold_left
        (fun '(atypes, aflags) arg =>
           (atypes ++ [Some (p_type arg)], aflags ++ [(1, p_name arg)]))
        args ([], [])
  end.

(** * Vocabulary of the statements *)

Section Vocabulary.
Context {K : kure.Engine}.

(** The world after a computation, and its outcome. *)
Definition after {A} (m : py A) (w : world) : world := (m w).2.
Definition outcome {A} (m : py A) (w : world) : result A := (m w).1.

(** The methods that build a relation from the receiver and another one, and
    the comparisons. *)
Inductive binop : Type := Meet | Join | Composition.

Inductive cmpop : Type :=
| Equals | NotEquals | IsSuperset | IsSubset | IsStrictSuperset | IsStrictSubset.

Definition binop_method (o : binop) : Relation.t -> pyval -> py Relation.t :=
  match o with
  | Meet => pyrel.meet
  | Join => pyrel.join
  | Composition => pyrel.composition
  end.

Definition cmpop_method (o : cmpop) : Relation.t -> pyval -> py bool :=
  match o with
  | Equals => pyrel.equals
  | NotEquals => pyrel.notEquals
  | IsSuperset => pyrel.isSuperset
  | IsSubset => pyrel.isSubset
  | IsStrictSuperset => pyrel.isStrictSuperset
  | IsStrictSubset => pyrel.isStrictSubset
  end.

(** The engine call a method makes with the handles of its two operands:
    [rop] is the handle of the result for the first three. *)
Definition binop_call (o : binop) (rop a b : N) : kure.call :=
  match o with
  | Meet => kure._and rop a b
  | Join => kure._or rop a b
  | Composition => kure._composition rop a b
  end.

(** The calls of [self.context.new(self.rows, self.cols)]: the relation is
    created, then [__init__] reads its dimensions. *)
Definition mint_calls (ctx : PyrelContext.t) (self : Relation.t) (w : world) : list kure.call :=
  let c := kure._rel_new_with_size_si (PyrelContext._context ctx)
             (c_int (Relation.rows self)) (c_int (Relation.cols self)) in
  let p := (kure.exec c (engine w)).1 in
  [c; kure._rel_get_rows_si p; kure._rel_get_cols_si p].

Definition minted (ctx : PyrelContext.t) (self : Relation.t) (w : world) : N :=
  (kure.exec
     (kure._rel_new_with_size_si (PyrelContext._context ctx)
        (c_int (Relation.rows self)) (c_int (Relation.cols self)))
     (engine w)).1.

(** The same relation object, had it belonged to context [c]. *)
Definition in_context (c : N) (r : Relation.t) : Relation.t :=
  Relation.Build c (Relation.ref r) (Relation.rel r) (Relation.rows r) (Relation.cols r).

(** A probability in (0.0, 1.0]. *)
Definition in_unit_interval (prob : pyval) : bool :=
  match prob with
  | PyFloat p => float_gt p float_0_0 && SFleb p float_1_0
  | _ => false
  end.

(** What the test of [random] lets through: a float above 0.0. *)
Definition positive_float (prob : pyval) : bool :=
  match prob with
  | PyFloat p => float_gt p float_0_0
  | _ => false
  end.

(** An element that unpacks into two values, and one whose two values are
    integers. *)
Definition unpacks_to_pair (item : pyval) : bool :=
  match py_iter item with
  | Some [_; _] => true
  | _ => false
  end.

Definition well_formed_pair (item : pyval) : bool :=
  match py_iter item with
  | Some [PyInt _; PyInt _] => true
  | _ => false
  end.

(** A coordinate pair as the tests write it: a tuple of two integers. *)
Definition pair (rc : Z * Z) : pyval := PyTuple [PyInt rc.1; PyInt rc.2].

Definition set_bit_call (self : Relation.t) (yesno : bool) (rc : Z * Z) : kure.call :=
  kure._set_bit_si (Relation.rel self)
    (if yesno then kure.Kure_True else kure.Kure_False) (c_int rc.1) (c_int rc.2).

(** The dimensions a C [int] can hold and [new] accepts. *)
Definition c_int_dimension (rows cols : Z) : Prop :=
  (rows = 0 /\ cols = 0) \/ (0 < rows < 2 ^ 31 /\ 0 < cols < 2 ^ 31).

(** *** Operations on a context, in sequence *)

Inductive ctx_op : Type :=
| OpNew (rows cols bits : pyval)
| OpAdd (rel : N)
| OpDelete (toDelete : Relation.t + Z)
| OpClean.

(** One operation on context [c]; an exception is left to the caller, the
    context stays as the operation left it. *)
Definition ctx_step (c : N) (op : ctx_op) : py unit :=
  match op with
  | OpNew rows cols bits => pyrel.new c rows cols bits;; mret tt
  | OpAdd rel => pyrel._add c rel;; mret tt
  | OpDelete toDelete => pyrel.delete c toDelete
  | OpClean => pyrel.clean c
  end.

(** The worlds a sequence of operations goes through, the first included. *)
Fixpoint history (c : N) (ops : list ctx_op) (w : world) : list world :=
  w :: match ops with
       | [] => []
       | op :: ops' => history c ops' (after (ctx_step c op) w)
       end.

(** The reference counter of context [c], and the numbers its mapping
    tracks. *)
Definition counter (c : N) (w : world) : Z :=
  match objects w !! c with
  | Some ctx => PyrelContext.ref ctx
  | None => 0
  end.

Definition tracked (c : N) (w : world) : list Z :=
  match objects w !! c with
  | Some ctx => pyrel.keys (PyrelContext.relations ctx)
  | None => []
  end.

(** The reference numbers given out between two worlds: those the mapping
    tracks now and did not before. *)
Definition assigned (c : N) (w w' : world) : list Z :=
  filter (fun k => k ∉ tracked c w) (tracked c w').

(** All the reference numbers given out by a sequence of operations, in the
    order they were. *)
Fixpoint assigned_refs (c : N) (ops : list ctx_op) (w : world) : list Z :=
  match ops with
  | [] => []
  | op :: ops' =>
      let w' := after (ctx_step c op) w in
      assigned c w w' ++ assigned_refs c ops' w'
  end.

(** Every tracked number has been given out by the counter. *)
Definition counter_covers (c : N) (w : world) : Prop :=
  Forall (fun k => k <= counter c w) (tracked c w).

(** A computation that leaves the context objects alone. *)
Definition keeps_objects {A} (m : py A) : Prop :=
  forall w, objects (after m w) = objects w.

(** What an operation may do to the counter and the mapping of context [c]:
    the counter does not go down; the mapping either tracks nothing it did
    not track, or the counter went up and the one new number is its new
    value. *)
Definition evolves (c : N) (w w' : world) : Prop :=
  counter c w <= counter c w' /\
  (assigned c w w' = [] \/
   (counter c w < counter c w' /\ assigned c w w' = [counter c w'])) /\
  (counter_covers c w -> counter_covers c w').

End Vocabulary.

(** The bit of a relation held by the reference engine. *)
Definition bit_at (s : Kure2.state) (p : N) (row col : Z) : option bool :=
  r ← Kure2.rels s !! p; Some (Kure2.r_bit r row col).

(** The dimensions of a relation held by the reference engine. *)
Definition dim_at (s : Kure2.state) (p : N) : option (Z * Z) :=
  r ← Kure2.rels s !! p; Some (Kure2.r_rows r, Kure2.r_cols r).

(** A relation object whose context and handle are live in the reference
    engine, the handle owned by the context's manager, and whose [rows] and
    [cols] are dimensions [__init__] can have read. *)
Definition live (w : world (K := Kure2.engine)) (r : Relation.t) : Prop :=
  exists ctx kr,
    objects w !! Relation.context r = Some ctx /\
    is_Some (Kure2.contexts (engine w) !! PyrelContext._context ctx) /\
    Kure2.rels (engine w) !! Relation.rel r = Some kr /\
    Kure2.r_context kr = PyrelContext._context ctx /\
    c_int_dimension (Relation.rows r) (Relation.cols r).

(** Addresses are handed out in increasing order: nothing live sits at or
    above the next one. *)
Definition fresh_next (s : Kure2.state) : Prop :=
  (forall p, (Kure2.next s <= p)%N -> Kure2.rels s !! p = None) /\
  (forall p, (Kure2.next s <= p)%N -> Kure2.contexts s !! p = None).

(** The check behind [fresh_next]. *)
Definition fresh_nextb (s : Kure2.state) : bool :=
  bool_decide (map_Forall (fun p _ => (p < Kure2.next s)%N) (Kure2.rels s)) &&
  bool_decide (map_Forall (fun p _ => (p < Kure2.next s)%N) (Kure2.contexts s)).

(** ** Concrete runs on the reference engine *)

(** The world of a program that has not called the library yet. *)
Definition fresh_world : world (K := Kure2.engine) :=
  @World Kure2.engine Kure2.init [] ∅ 0.

Definition float_2_0 : spec_float := S754_finite false 4503599627370496 (-51).

(** [ctx = PyrelContext(); r = ctx.new(rows, cols, bits)] *)
Definition mint_in_new_context (rows cols : Z) (bits : pyval)
  : py (K := Kure2.engine) Relation.t :=
  ctx ← pyrel.PyrelContext__init__;
  pyrel.new ctx (PyInt rows) (PyInt cols) bits.

(** The dimensions the engine holds for the handle of a relation object. *)
Definition engine_dim (r : Relation.t) : py (K := Kure2.engine) (option (Z * Z)) :=
  @peek Kure2.engine _ (fun s => dim_at s (Relation.rel r)).

Definition engine_bit (r : Relation.t) (row col : Z)
  : py (K := Kure2.engine) (option bool) :=
  @peek Kure2.engine _ (fun s => bit_at s (Relation.rel r) row col).

(** [r = ctx.new(3, 5); t = r.transpose()]: the attributes of [t], and the
    dimensions of its handle. *)
Definition transpose_3x5 : py (K := Kure2.engine) (Z * Z * option (Z * Z)) :=
  r ← mint_in_new_context 3 5 PyNone;
  t ← pyrel.transpose r;
  d ← engine_dim t;
  mret (Relation.rows t, Relation.cols t, d).

(** [a = ctx.new(2, 3, [(0,1)]); b = ctx.new(3, 4, [(1,3)]);
    x = a.composition(b)]: the attributes of [x], the dimensions of its
    handle, and its bit (0,3). *)
Definition composition_2x3_3x4
  : py (K := Kure2.engine) (Z * Z * option (Z * Z) * option bool) :=
  ctx ← pyrel.PyrelContext__init__;
  a ← pyrel.new ctx (PyInt 2) (PyInt 3) (PyList [pair (0, 1)]);
  b ← pyrel.new ctx (PyInt 3) (PyInt 4) (PyList [pair (1, 3)]);
  x ← pyrel.composition a (PyRel b);
  d ← engine_dim x;
  bit ← engine_bit x 0 3;
  mret (Relation.rows x, Relation.cols x, d, bit).

(** Two contexts with a 1x1 relation each. *)
Definition two_contexts : py (K := Kure2.engine) (Relation.t * Relation.t) :=
  c1 ← pyrel.PyrelContext__init__;
  c2 ← pyrel.PyrelContext__init__;
  r1 ← pyrel.new c1 (PyInt 1) (PyInt 1) PyNone;
  r2 ← pyrel.new c2 (PyInt 1) (PyInt 1) PyNone;
  mret (r1, r2).

Definition relation_1 : Relation.t := Relation.Build 0 1 3 1 1.
Definition relation_2 : Relation.t := Relation.Build 1 1 4 1 1.

(** A 1x1 relation with its bit set, and a 4x4 relation with none. *)
Definition relation_1x1 : Relation.t := Relation.Build 0 1 2 1 1.
Definition relation_4x4 : Relation.t := Relation.Build 0 1 2 4 4.

Definition world_1x1 : world (K := Kure2.engine) :=
  after (mint_in_new_context 1 1 (PyList [pair (0, 0)])) fresh_world.

Definition world_4x4 : world (K := Kure2.engine) :=
  after (mint_in_new_context 4 4 PyNone) fresh_world.

Definition world_two_contexts : world (K := Kure2.engine) :=
  after two_contexts fresh_world.

(** A context just created, and a sequence of operations on it. *)
Definition world_new_context : world (K := Kure2.engine) :=
  after pyrel.PyrelContext__init__ fresh_world.

Definition some_ops : list ctx_op :=
  [OpNew (PyInt 1) (PyInt 1) PyNone; OpNew (PyInt 2) (PyInt 2) PyNone;
   OpDelete (inr 1); OpAdd 7; OpNew (PyInt 0) (PyInt 1) PyNone; OpClean;
   OpNew (PyInt 1) (PyInt 1) PyNone].

(** ** More vocabulary: the mapping of a context *)

Section Mapping.
Context {K : kure.Engine}.

(** The handle context [c] tracks under number [k]. *)
Definition handle_of (c : N) (k : Z) (w : world) : option N :=
  ctx ← objects w !! c; pyrel.dict_get k (PyrelContext.relations ctx).

(** The handles context [c] tracks, in insertion order. *)
Definition handles (c : N) (w : world) : list N :=
  match objects w !! c with
  | Some ctx => snd <$> PyrelContext.relations ctx
  | None => []
  end.

(** The number [delete] looks up for its argument. *)
Definition ref_of (toDelete : Relation.t + Z) : Z :=
  match toDelete with inl r => Relation.ref r | inr n => n end.

(** The methods that build their result from the receiver alone. *)
Inductive unop : Type := Empty | Universal | Identity | Transpose | Complement.

Definition unop_method (o : unop) : Relation.t -> py Relation.t :=
  match o with
  | Empty => pyrel.empty
  | Universal => pyrel.universal
  | Identity => pyrel.identity
  | Transpose => pyrel.transpose
  | Complement => pyrel.complement
  end.

(** The engine call of each, on the handle [rop] of the result. *)
Definition unop_call (o : unop) (rop arg : N) : kure.call :=
  match o with
  | Empty => kure._empty rop
  | Universal => kure._universal rop
  | Identity => kure._identity rop
  | Transpose => kure._transpose rop arg
  | Complement => kure._complement rop arg
  end.

(** A computation that changes no context object but [c]. *)
Definition only_touches {A} (c : N) (m : py A) : Prop :=
  forall w c', c' <> c -> objects (after m w) !! c' = objects w !! c'.

(** The world once the engine has executed call [k]. *)
Definition called (k : kure.call) (w : world) : world := after (call k) w.

(** What the engine returns for call [k] in world [w]. *)
Definition returned (k : kure.call) (w : world) : kure.ret k :=
  (kure.exec k (engine w)).1.

(** The engine state once the handles [hs] have been destroyed, in that
    order. *)
Definition destroy_all (hs : list N) (s : kure.state) : kure.state :=
  fold_left (fun s h => (kure.exec (kure._rel_destroy h) s).2) hs s.

(** The call that creates the relation of [new c rows cols], and the handle
    the engine returns for it. *)
Definition create_call (ctx : PyrelContext.t) (rows cols : pyval) : kure.call :=
  kure._rel_new_with_size_si (PyrelContext._context ctx)
    (c_int (pyrel.int_value rows)) (c_int (pyrel.int_value cols)).

End Mapping.

(** ** More concrete runs on the reference engine *)

(** [ctx = PyrelContext(); ctx.new(1, 1); ctx.new(2, 2); ctx.new(3, 3)] *)
Definition three_relations : py (K := Kure2.engine) unit :=
  ctx ← pyrel.PyrelContext__init__;
  pyrel.new ctx (PyInt 1) (PyInt 1) PyNone;;
  pyrel.new ctx (PyInt 2) (PyInt 2) PyNone;;
  pyrel.new ctx (PyInt 3) (PyInt 3) PyNone;;
  mret tt.

Definition world_three : world (K := Kure2.engine) := after three_relations fresh_world.

(** The first two relations of [world_three], and the context object as it
    stands in [world_new_context], [world_1x1] and [world_three]. *)
Definition relation_a : Relation.t := Relation.Build 0 1 2 1 1.
Definition relation_b : Relation.t := Relation.Build 0 2 3 2 2.

Definition context_new : PyrelContext.t := PyrelContext.Build 1 0 [].
Definition context_1x1 : PyrelContext.t := PyrelContext.Build 1 1 [(1, 2%N)].
Definition context_three : PyrelContext.t :=
  PyrelContext.Build 1 3 [(1, 2%N); (2, 3%N); (3, 4%N)].

(** ** More vocabulary: what is raised, what is refused, what is handed out *)

Section Handing.
Context {K : kure.Engine}.

(** What [_kure_error] makes of the last-error record of the manager [kc]:
    the engine's error, with the message and the code of the record, when
    the record is there and has a message; [ValueError] when a pointer on
    the way to it is [NULL]; [AttributeError] when its message is. *)
Definition last_error_exn (kc : N) (s : kure.state) : exn :=
  match kure.error kc s with
  | Some (Some msg, code) => EngineError msg code
  | Some (None, _) => AttributeError
  | None => ValueError
  end.

(** A [PyrelException] without a code: one of the module's own raise
    statements, not [_kure_error]. *)
Definition raised_locally (e : exn) : bool :=
  match e with PyrelException _ None => true | _ => false end.

(** The dimension invariant as the specification words it: two integers,
    both zero or both positive. *)
Definition dimension_invariant (rows cols : pyval) : Prop :=
  exists r k, rows = PyInt r /\ cols = PyInt k /\
              ((r = 0 /\ k = 0) \/ (0 < r /\ 0 < k)).

(** The reference number an operation hands to its caller, with the handle
    it goes with: the [ref] and the [rel] of the relation that [new]
    returns, the number that [_add] returns for its argument.  [delete] and
    [clean] hand out none, nor does a call that raises. *)
Definition handed_out (c : N) (op : ctx_op) (w : world) : option (Z * N) :=
  match op with
  | OpNew rows cols bits =>
      match outcome (pyrel.new c rows cols bits) w with
      | Ok r => Some (Relation.ref r, Relation.rel r)
      | Raise _ => None
      end
  | OpAdd rel =>
      match outcome (pyrel._add c rel) w with
      | Ok ref => Some (ref, rel)
      | Raise _ => None
      end
  | OpDelete _ | OpClean => None
  end.

(** The numbers handed out by a sequence of operations, in the order they
    were. *)
Fixpoint handed_out_refs (c : N) (ops : list ctx_op) (w : world) : list Z :=
  match ops with
  | [] => []
  | op :: ops' =>
      let rest := handed_out_refs c ops' (after (ctx_step c op) w) in
      match handed_out c op w with
      | Some (n, _) => n :: rest
      | None => rest
      end
  end.

End Handing.

(** * Properties *)

(** Unfolding the monad down to functions on worlds. *)
Ltac py_unfold :=
  unfold after, outcome, mbind, py_bind, mret, py_ret, raise, try_except, peek,
    call, get_context, set_context, new_object in *.

(** One step of a computation: the result of an engine call is named, a
    lookup that is known is taken. *)
Ltac py_run :=
  repeat first
    [ progress cbn [fst snd engine calls objects next_id negb
                      Relation.rel Relation.context Relation.rows Relation.cols
                      Relation.ref PyrelContext._context PyrelContext.ref
                      PyrelContext.relations]
    | match goal with
      | |- context [kure.exec ?c ?s] => destruct (kure.exec c s) as [? ?] eqn:?
      | H : ?m !! ?k = Some _ |- context [?m !! ?k] => rewrite H
      | H : ?m !! ?k = None |- context [?m !! ?k] => rewrite H
      | |- context [<[?k := _]> _ !! ?k] => rewrite lookup_insert_eq
      end ].

(** [_kure_error] raises: the case is closed once the exception is named. *)
Ltac kure_error_case lem :=
  match goal with
  | |- context [pyrel._kure_error (A := ?T) ?self ?w'] =>
      let e := fresh "e" in
      destruct (lem _ T self w') as [e ->]
  end.

(** ** What holds for every engine *)

Section AnyEngine.
Context {K : kure.Engine}.
Implicit Types (self : Relation.t) (w : world) (other : pyval).

(** *** Local validation *)

Lemma new_rejects c rows cols bits w :
  pyrel.isValidDimension rows cols = false ->
  pyrel.new c rows cols bits w = (Raise InvalidDimension, w).
Proof. intros H. unfold pyrel.new. by rewrite H. Qed.

Lemma binop_rejects o self other w :
  isinstance_Relation other = false ->
  binop_method o self other w = (Raise TypeMismatch, w).
Proof.
  intros H. destruct o; cbn [binop_method];
    unfold pyrel.meet, pyrel.join, pyrel.composition, pyrel._is_relation;
    py_unfold; by rewrite H.
Qed.

Lemma cmpop_rejects o self other w :
  isinstance_Relation other = false ->
  cmpop_method o self other w = (Raise TypeMismatch, w).
Proof.
  intros H. destruct o; cbn [cmpop_method];
    unfold pyrel.notEquals, pyrel.isStrictSuperset, pyrel.isStrictSubset;
    unfold pyrel.equals, pyrel.isSuperset, pyrel.isSubset, pyrel._is_relation;
    py_unfold; by rewrite H.
Qed.

Lemma vector_rejects self v w :
  type_is_int v = false ->
  pyrel.vector self v w = (Raise InvalidVectorArg, w).
Proof. intros H. unfold pyrel.vector. by rewrite H. Qed.

(** [_kure_error] always raises, and makes no call. *)
Lemma _kure_error_raises {A} self w :
  exists e, pyrel._kure_error (A := A) self w = (Raise e, w).
Proof.
  unfold pyrel._kure_error. py_unfold.
  destruct (objects w !! Relation.context self); [|by eauto].
  destruct (kure.error _ _) as [[[msg|] code]|]; eauto.
Qed.

(** A call into the engine leaves the context objects alone. *)
Lemma keeps_call_objects k w : objects (after (call k) w) = objects w.
Proof. unfold after, call. by destruct (kure.exec _ _). Qed.

(** What [_kure_error] raises once the receiver's context object is found:
    it is read off the last-error record of the context's manager. *)
Lemma _kure_error_runs {A} self w ctx :
  objects w !! Relation.context self = Some ctx ->
  pyrel._kure_error (A := A) self w =
    (Raise (last_error_exn (PyrelContext._context ctx) (engine w)), w).
Proof.
  intros Hc. unfold pyrel._kure_error, last_error_exn. py_unfold. rewrite Hc.
  by destruct (kure.error _ _) as [[[msg|] code]|].
Qed.

Lemma last_error_exn_not_local kc s : raised_locally (last_error_exn kc s) = false.
Proof. unfold last_error_exn. by destruct (kure.error _ _) as [[[msg|] code]|]. Qed.

Lemma _kure_error_not_local {A} self w e w' :
  pyrel._kure_error (A := A) self w = (Raise e, w') -> raised_locally e = false.
Proof.
  unfold pyrel._kure_error. py_unfold.
  destruct (objects w !! Relation.context self); [|by intros [= <- _]].
  destruct (kure.error _ _) as [[[msg|] code]|]; by intros [= <- _].
Qed.

(** C10: for a relation r and an object x that is not a Relation, r == x is
    False and r != x is True, without an exception and without a call into
    the engine (the world is unchanged), while r.equals(x) raises the type
    error of _is_relation. *)
Theorem eq_of_non_relation self other w :
  isinstance_Relation other = false ->
  pyrel.__eq__ self other w = (Ok false, w) /\
  pyrel.__ne__ self other w = (Ok true, w) /\
  pyrel.equals self other w = (Raise TypeMismatch, w).
Proof.
  intros H. split_and!.
  - unfold pyrel.__eq__. by rewrite H.
  - unfold pyrel.__ne__, pyrel.__eq__. py_unfold. by rewrite H.
  - exact (cmpop_rejects Equals self other w H).
Qed.

(** *** random *)

Lemma clear_calls self w :
  calls (after (pyrel.clear self) w) = calls w ++ [kure._empty (Relation.rel self)] /\
  engine (after (pyrel.clear self) w) = (kure.exec (kure._empty (Relation.rel self)) (engine w)).2.
Proof.
  unfold pyrel.clear, after, mbind, py_bind, call.
  destruct (kure.exec _ _) as [ok s] eqn:E. cbn [snd].
  destruct (negb (pyrel.bool_ord ok)).
  - destruct (_kure_error_raises (A := unit) self
                (World s (calls w ++ [kure._empty (Relation.rel self)]) (objects w) (next_id w)))
      as [e ->]. done.
  - done.
Qed.

Lemma random_rejects self prob w w1 :
  positive_float prob = false ->
  pyrel.clear self w = (Ok tt, w1) ->
  pyrel.random self prob w = (Raise InvalidArgument, w1).
Proof.
  intros Hp Hc. unfold pyrel.random. unfold mbind at 1, py_bind. rewrite Hc.
  destruct prob; try done. cbn in Hp. by rewrite Hp.
Qed.

Lemma random_accepts self p w w1 :
  float_gt p float_0_0 = true ->
  pyrel.clear self w = (Ok tt, w1) ->
  pyrel.random self (PyFloat p) w =
    (Ok tt, after (call (kure._random_simple (Relation.rel self)
                           (c_float (py_min float_1_0 p)))) w1).
Proof.
  intros Hp Hc. unfold pyrel.random. unfold mbind at 1, py_bind. rewrite Hc, Hp.
  unfold after, mbind, py_bind, call, pyrel.bytes1_truthy.
  by destruct (kure.exec _ _).
Qed.

(** A float above 1.0 is above 0.0, and [min(1.0, p)] is 1.0. *)
Lemma above_one_clamped p :
  float_gt p float_1_0 = true ->
  float_gt p float_0_0 = true /\ py_min float_1_0 p = float_1_0.
Proof.
  unfold float_gt, py_min, SFltb, float_1_0, float_0_0.
  destruct p as [s|s| |s m e]; cbn [SFcompare].
  - done.
  - destruct s; done.
  - done.
  - destruct s; [done|].
    change IntDef.Z.compare with Z.compare.
    change PosDef.Pos.compare_cont with Pos.compare_cont.
    destruct (Z.compare_spec (-52) e) as [<-|Hlt|Hgt].
    + replace (Pos.compare_cont Eq m 4503599627370496)
        with (CompOpp (Pos.compare_cont Eq 4503599627370496 m))
        by apply (Pos.compare_cont_antisym _ _ Eq).
      destruct (Pos.compare_cont Eq 4503599627370496 m); done.
    + rewrite (proj2 (Z.compare_gt_iff _ _) Hlt). done.
    + done.
Qed.

(** C5 (as the code has it): random(prob) raises InvalidArgument when prob
    is not a float or is not above 0.0 (NaN included), once the clear that
    precedes the test has succeeded.  Every float above 0.0 is accepted: the
    fill is requested with min(1.0, prob), so for a float above 1.0 it is
    requested with probability 1.0 and nothing is raised. *)
Theorem random_argument_check self prob w w1 :
  pyrel.clear self w = (Ok tt, w1) ->
  (positive_float prob = false ->
     pyrel.random self prob w = (Raise InvalidArgument, w1)) /\
  (forall p, prob = PyFloat p -> float_gt p float_0_0 = true ->
     pyrel.random self prob w =
       (Ok tt, after (call (kure._random_simple (Relation.rel self)
                              (c_float (py_min float_1_0 p)))) w1)) /\
  (forall p, prob = PyFloat p -> float_gt p float_1_0 = true ->
     pyrel.random self prob w =
       (Ok tt, after (call (kure._random_simple (Relation.rel self)
                              (c_float float_1_0))) w1)).
Proof.
  intros Hc. split_and!.
  - intros Hp. by apply random_rejects.
  - intros p -> Hp. by apply random_accepts.
  - intros p -> Hp. destruct (above_one_clamped p Hp) as [H0 H1].
    by rewrite (random_accepts self p w w1 H0 Hc), H1.
Qed.

(** *** set_bits *)

Lemma set_bits_loop_app self pre rest yesno w :
  pyrel.set_bits_loop self (pre ++ rest) yesno w =
    match pyrel.set_bits_loop self pre yesno w with
    | (Ok _, w1) => pyrel.set_bits_loop self rest yesno w1
    | (Raise e, w1) => (Raise e, w1)
    end.
Proof.
  revert w. induction pre as [|item pre IH]; intros w; [done|].
  cbn [app pyrel.set_bits_loop].
  destruct (py_iter item) as [[|row [|col [|? ?]]]|]; try done.
  unfold mbind, py_bind.
  destruct (pyrel.set_bit self row col yesno w) as [[[]|e] w']; [apply IH|done].
Qed.

(** [set_bits] returns normally exactly when its loop does. *)
Lemma set_bits_ok self items yesno w w1 :
  pyrel.set_bits self (PyList items) yesno w = (Ok tt, w1) <->
  pyrel.set_bits_loop self items yesno w = (Ok tt, w1).
Proof.
  unfold pyrel.set_bits, try_except, raise. cbn [py_iter].
  destruct (pyrel.set_bits_loop self items yesno w) as [[[]|e] w'].
  - done.
  - destruct (pyrel.handles_TypeError_ValueError e); split; intros; simplify_eq.
Qed.

(** No rollback: when the loop reaches an element that does not unpack into
    two values, [InvalidBitPair] is raised in the world the pairs before it
    have produced. *)
Lemma set_bits_malformed self pre bad post yesno w w1 :
  pyrel.set_bits self (PyList pre) yesno w = (Ok tt, w1) ->
  unpacks_to_pair bad = false ->
  pyrel.set_bits self (PyList (pre ++ bad :: post)) yesno w = (Raise InvalidBitPair, w1).
Proof.
  intros Hpre%set_bits_ok Hbad.
  unfold pyrel.set_bits, try_except. cbn [py_iter].
  rewrite set_bits_loop_app, Hpre. cbn [pyrel.set_bits_loop].
  unfold unpacks_to_pair in Hbad.
  destruct (py_iter bad) as [[|row [|col [|? ?]]]|]; done.
Qed.

(** A pair with a coordinate that ctypes cannot convert: the exception is
    [ctypes.ArgumentError], which [set_bits] does not catch. *)
Lemma set_bits_unconvertible self pre row col post yesno w w1 bad :
  pyrel.set_bits self (PyList pre) yesno w = (Ok tt, w1) ->
  py_iter bad = Some [row; col] ->
  as_c_int row = None \/ as_c_int col = None ->
  pyrel.set_bits self (PyList (pre ++ bad :: post)) yesno w = (Raise ArgumentError, w1).
Proof.
  intros Hpre%set_bits_ok Hbad Hconv.
  unfold pyrel.set_bits, try_except. cbn [py_iter].
  rewrite set_bits_loop_app, Hpre. cbn [pyrel.set_bits_loop]. rewrite Hbad.
  unfold mbind, py_bind, pyrel.set_bit.
  destruct Hconv as [-> | ->]; [|destruct (as_c_int row)]; done.
Qed.

(** The calls of a successful [set_bits] over integer pairs: one
    [kure_set_bit_si] per pair, in the order of the list. *)
Lemma set_bits_loop_calls self coords yesno w w1 :
  pyrel.set_bits_loop self (pair <$> coords) yesno w = (Ok tt, w1) ->
  calls w1 = calls w ++ (set_bit_call self yesno <$> coords) /\
  objects w1 = objects w.
Proof.
  revert w. induction coords as [|[r c] coords IH]; intros w.
  - cbn. intros [= <-]. by rewrite app_nil_r.
  - cbn [fmap list_fmap pyrel.set_bits_loop pair py_iter fst snd].
    unfold mbind at 1, py_bind at 1.
    unfold pyrel.set_bit. cbn [as_c_int].
    unfold mbind at 1, py_bind at 1, call.
    destruct (kure.exec _ _) as [ok s] eqn:E.
    destruct (negb (pyrel.bool_ord ok)).
    + match goal with |- context [pyrel._kure_error self ?w'] =>
        destruct (_kure_error_raises (A := unit) self w') as [e ->] end. done.
    + cbn. intros [Hc Ho]%IH. cbn in Hc, Ho. split; [|done].
      rewrite Hc, <- app_assoc. done.
Qed.

(** *** The dimension check of new *)

(** The test of [new] is the dimension invariant: it lets through two
    integers that are both zero or both positive, and nothing else. *)
Lemma isValidDimension_spec rows cols :
  pyrel.isValidDimension rows cols = true <-> dimension_invariant rows cols.
Proof.
  unfold dimension_invariant. split.
  - destruct rows as [| | r | | | | |], cols as [| | k | | | | |]; cbn; try done.
    intros H. exists r, k. split_and!; [done|done|lia].
  - intros (r & k & -> & -> & H). cbn. lia.
Qed.

Lemma new_refuses c rows cols bits w :
  ~ dimension_invariant rows cols ->
  pyrel.new c rows cols bits w = (Raise InvalidDimension, w).
Proof.
  intros H. apply new_rejects.
  destruct (pyrel.isValidDimension rows cols) eqn:E; [|done].
  by apply isValidDimension_spec in E.
Qed.

(** What [set_bits] raises is [InvalidBitPair], or comes from further down:
    the argument conversion or [_kure_error]. *)
Lemma set_bit_not_local self row col yesno w e w' :
  pyrel.set_bit self row col yesno w = (Raise e, w') -> raised_locally e = false.
Proof.
  unfold pyrel.set_bit.
  destruct (as_c_int row), (as_c_int col); try by intros [= <- _].
  py_unfold. destruct (kure.exec _ _) as [ok s].
  destruct (negb _); [apply _kure_error_not_local|done].
Qed.

Lemma set_bits_loop_not_local self items yesno w e w' :
  pyrel.set_bits_loop self items yesno w = (Raise e, w') -> raised_locally e = false.
Proof.
  revert w. induction items as [|item items IH]; intros w; [done|].
  cbn [pyrel.set_bits_loop].
  destruct (py_iter item) as [[|row [|col [|? ?]]]|]; try by intros [= <- _].
  unfold mbind, py_bind.
  destruct (pyrel.set_bit self row col yesno w) as [[[]|e0] w0] eqn:Hset.
  - apply IH.
  - intros [= <- _]. by eapply set_bit_not_local.
Qed.

Lemma set_bits_raises self bits yesno w e w' :
  pyrel.set_bits self bits yesno w = (Raise e, w') ->
  e = InvalidBitPair \/ raised_locally e = false.
Proof.
  unfold pyrel.set_bits, try_except, raise.
  destruct (py_iter bits) as [items|].
  - destruct (pyrel.set_bits_loop self items yesno w) as [[[]|e0] w0] eqn:Hloop; [done|].
    destruct (pyrel.handles_TypeError_ValueError e0); intros [= <- _]; [by left|].
    right. by eapply set_bits_loop_not_local.
  - cbn. intros [= <- _]. by left.
Qed.

(** Two integers that are both zero or both positive are never refused:
    whatever [new] raises for them, it is not [InvalidDimension]. *)
Lemma new_accepts c rows cols bits w :
  dimension_invariant rows cols ->
  outcome (pyrel.new c rows cols bits) w <> Raise InvalidDimension.
Proof.
  intros Hdim%isValidDimension_spec. unfold outcome, pyrel.new. rewrite Hdim.
  cbn [negb]. unfold pyrel.Relation__init__. py_unfold.
  destruct (objects w !! c) as [ctx|] eqn:Hc; [|done]. py_run.
  destruct (truthy bits); [|done].
  destruct (pyrel.set_bits _ _ _ _) as [[[]|e] w4] eqn:Hbits; [done|]. cbn.
  destruct (set_bits_raises _ _ _ _ _ _ Hbits) as [-> |He]; [done|].
  intros [= ->]. done.
Qed.

(** Without bits there is nothing left that can fail: the relation is
    created, its dimensions are read, and it is returned. *)
Lemma new_without_bits c rows cols w ctx :
  objects w !! c = Some ctx ->
  dimension_invariant rows cols ->
  exists rel,
    outcome (pyrel.new c rows cols PyNone) w = Ok rel /\
    Relation.ref rel = PyrelContext.ref ctx + 1 /\
    Relation.rel rel = returned (create_call ctx rows cols) w /\
    calls (after (pyrel.new c rows cols PyNone) w) =
      calls w ++ [create_call ctx rows cols;
                  kure._rel_get_rows_si (returned (create_call ctx rows cols) w);
                  kure._rel_get_cols_si (returned (create_call ctx rows cols) w)].
Proof.
  intros Hc Hdim%isValidDimension_spec.
  unfold outcome, after, returned, create_call, pyrel.new. rewrite Hdim.
  cbn [negb truthy]. unfold pyrel.Relation__init__. py_unfold. rewrite Hc. py_run.
  eexists. split_and!; try done. cbn. by rewrite <- !app_assoc.
Qed.

End AnyEngine.

(** ** Operands of another context *)

(** [_kure_error] in a hypothesis: it has raised. *)
Ltac kure_error_in H :=
  match type of H with
  | context [pyrel._kure_error (A := ?T) ?self ?w1] =>
      let e := fresh "e" in
      let E := fresh "E" in
      destruct (_kure_error_raises (A := T) self w1) as [e E]; rewrite E in H
  end.

Section OtherContext.
Context {K : kure.Engine}.
Implicit Types (self : Relation.t) (w : world) (other : Relation.t).

Lemma binop_calls o self other w ctx :
  objects w !! Relation.context self = Some ctx ->
  pyrel.isValidDimension (PyInt (Relation.rows self)) (PyInt (Relation.cols self)) = true ->
  calls (after (binop_method o self (PyRel other)) w) =
    calls w ++ mint_calls ctx self w ++
      [binop_call o (minted ctx self w) (Relation.rel self) (Relation.rel other)].
Proof.
  intros Hctx Hdim. unfold mint_calls, minted.
  destruct o; cbn [binop_method binop_call];
    unfold pyrel.meet, pyrel.join, pyrel.composition, pyrel.new,
      pyrel.Relation__init__, pyrel._is_relation, pyrel.attr_rel;
    cbn [isinstance_Relation negb truthy pyrel.int_value];
    rewrite Hdim; py_unfold; py_run; simplify_eq;
    (destruct (pyrel.bool_ord _); [|kure_error_case @_kure_error_raises]);
    cbn; by rewrite <- !app_assoc.
Qed.

Lemma cmp_calls self other w :
  calls (after (pyrel.equals self (PyRel other)) w) =
    calls w ++ [kure._equals (Relation.rel self) (Relation.rel other)] /\
  calls (after (pyrel.isSubset self (PyRel other)) w) =
    calls w ++ [kure._includes (Relation.rel self) (Relation.rel other)] /\
  calls (after (pyrel.isSuperset self (PyRel other)) w) =
    calls w ++ [kure._includes (Relation.rel other) (Relation.rel self)].
Proof.
  split_and!;
    unfold pyrel.equals, pyrel.isSubset, pyrel.isSuperset, pyrel._is_relation,
      pyrel.attr_rel;
    cbn [isinstance_Relation negb]; py_unfold; py_run;
    (destruct (pyrel.bool_ord _); [|kure_error_case @_kure_error_raises]);
    done.
Qed.

(** *** The comparisons, call by call *)

Lemma equals_runs self other w :
  pyrel.equals self (PyRel other) w =
    let k := kure._equals (Relation.rel self) (Relation.rel other) in
    if pyrel.bool_ord (returned k w).2
    then (Ok (pyrel.bool_ord (returned k w).1), called k w)
    else pyrel._kure_error self (called k w).
Proof.
  unfold pyrel.equals, pyrel._is_relation, pyrel.attr_rel, returned, called, after.
  cbn [isinstance_Relation negb]. py_unfold.
  destruct (kure.exec _ _) as [[v ok] s]. cbn. by destruct (pyrel.bool_ord ok).
Qed.

Lemma isSubset_runs self other w :
  pyrel.isSubset self (PyRel other) w =
    let k := kure._includes (Relation.rel self) (Relation.rel other) in
    if pyrel.bool_ord (returned k w).2
    then (Ok (pyrel.bool_ord (returned k w).1), called k w)
    else pyrel._kure_error self (called k w).
Proof.
  unfold pyrel.isSubset, pyrel._is_relation, pyrel.attr_rel, returned, called, after.
  cbn [isinstance_Relation negb]. py_unfold.
  destruct (kure.exec _ _) as [[v ok] s]. cbn. by destruct (pyrel.bool_ord ok).
Qed.

Lemma isSuperset_runs self other w :
  pyrel.isSuperset self (PyRel other) w =
    let k := kure._includes (Relation.rel other) (Relation.rel self) in
    if pyrel.bool_ord (returned k w).2
    then (Ok (pyrel.bool_ord (returned k w).1), called k w)
    else pyrel._kure_error self (called k w).
Proof.
  unfold pyrel.isSuperset, pyrel._is_relation, pyrel.attr_rel, returned, called, after.
  cbn [isinstance_Relation negb]. py_unfold.
  destruct (kure.exec _ _) as [[v ok] s]. cbn. by destruct (pyrel.bool_ord ok).
Qed.

(** A comparison that fails the success test raises what the last-error
    record of the receiver's manager holds after the call. *)
Lemma cmp_raises self other w ctx e w' :
  objects w !! Relation.context self = Some ctx ->
  pyrel.equals self (PyRel other) w = (Raise e, w') \/
  pyrel.isSubset self (PyRel other) w = (Raise e, w') \/
  pyrel.isSuperset self (PyRel other) w = (Raise e, w') ->
  e = last_error_exn (PyrelContext._context ctx) (engine w') /\
  exists k, calls w' = calls w ++ [k].
Proof.
  intros Hc.
  assert (forall k, objects (called k w) !! Relation.context self = Some ctx) as Hk.
  { intros k. unfold called. by rewrite keeps_call_objects. }
  assert (forall k, calls (called k w) = calls w ++ [k]) as Hcalls.
  { intros k. unfold called, after, call. by destruct (kure.exec _ _). }
  rewrite equals_runs, isSubset_runs, isSuperset_runs. cbn zeta.
  intros [H|[H|H]];
    (match type of H with context [if ?c then _ else _] => destruct c end; [done|]);
    rewrite (_kure_error_runs _ _ ctx (Hk _)) in H; injection H as <- <-;
    (split; [done|]); eexists; apply Hcalls.
Qed.

Lemma cmpop_raises o self other w ctx e w' :
  objects w !! Relation.context self = Some ctx ->
  cmpop_method o self (PyRel other) w = (Raise e, w') ->
  e = last_error_exn (PyrelContext._context ctx) (engine w') /\
  exists k ks, calls w' = calls w ++ k :: ks.
Proof.
  intros Hc.
  assert (forall m : py bool,
            (pyrel._is_relation self (PyRel other);; m) w = m w) as Hskip by done.
  assert (forall w0 e0 w0',
            objects w0 !! Relation.context self = Some ctx ->
            pyrel.equals self (PyRel other) w0 = (Raise e0, w0') ->
            e0 = last_error_exn (PyrelContext._context ctx) (engine w0') /\
            exists k, calls w0' = calls w0 ++ [k]) as Heq.
  { intros w0 e0 w0' Hc0 H. eapply cmp_raises; [done|by left]. }
  assert (forall (m : py bool) a w1,
            m w = (Ok a, w1) ->
            (exists k, calls w1 = calls w ++ [k]) ->
            objects w1 = objects w ->
            (a' ← m; if a' : bool then b ← pyrel.equals self (PyRel other); mret (negb b)
                     else mret false) w = (Raise e, w') ->
            e = last_error_exn (PyrelContext._context ctx) (engine w') /\
            exists k ks, calls w' = calls w ++ k :: ks) as Hthen.
  { intros m a w1 Hm [k Hk] Ho. unfold mbind at 1, py_bind at 1. rewrite Hm.
    destruct a; [|done]. unfold mbind, py_bind.
    destruct (pyrel.equals self (PyRel other) w1) as [[b|e1] w2] eqn:E; [done|].
    intros [= <- <-]. destruct (Heq w1 e1 w2) as [He [k2 Hk2]]; [by rewrite Ho|done|].
    split; [done|]. exists k, [k2]. by rewrite Hk2, Hk, <- app_assoc. }
  destruct o; cbn [cmpop_method].
  - intros H. destruct (Heq w e w' Hc H) as [He [k Hk]]. split; [done|]. by exists k, [].
  - unfold pyrel.notEquals, mbind, py_bind.
    destruct (pyrel.equals self (PyRel other) w) as [[b|e1] w1] eqn:E; [done|].
    intros [= <- <-]. destruct (Heq w e1 w1 Hc E) as [He [k Hk]].
    split; [done|]. by exists k, [].
  - intros H. destruct (cmp_raises self other w ctx e w' Hc) as [He [k Hk]]; [auto|].
    split; [done|]. by exists k, [].
  - intros H. destruct (cmp_raises self other w ctx e w' Hc) as [He [k Hk]]; [auto|].
    split; [done|]. by exists k, [].
  - unfold pyrel.isStrictSuperset. rewrite Hskip.
    destruct (pyrel.isSuperset self (PyRel other) w) as [[a|e1] w1] eqn:E.
    + apply (Hthen _ a w1 E).
      * rewrite isSuperset_runs in E. cbn zeta in E.
        destruct (pyrel.bool_ord _); [injection E as _ <-|].
        -- eexists. unfold called, after, call. by destruct (kure.exec _ _).
        -- kure_error_in E; done.
      * rewrite isSuperset_runs in E. cbn zeta in E.
        destruct (pyrel.bool_ord _); [injection E as _ <-|].
        -- unfold called. by rewrite keeps_call_objects.
        -- kure_error_in E; done.
    + unfold mbind, py_bind. rewrite E. intros [= <- <-].
      destruct (cmp_raises self other w ctx e1 w1 Hc) as [He [k Hk]]; [auto|].
      split; [done|]. by exists k, [].
  - unfold pyrel.isStrictSubset. rewrite Hskip.
    destruct (pyrel.isSubset self (PyRel other) w) as [[a|e1] w1] eqn:E.
    + apply (Hthen _ a w1 E).
      * rewrite isSubset_runs in E. cbn zeta in E.
        destruct (pyrel.bool_ord _); [injection E as _ <-|].
        -- eexists. unfold called, after, call. by destruct (kure.exec _ _).
        -- kure_error_in E; done.
      * rewrite isSubset_runs in E. cbn zeta in E.
        destruct (pyrel.bool_ord _); [injection E as _ <-|].
        -- unfold called. by rewrite keeps_call_objects.
        -- kure_error_in E; done.
    + unfold mbind, py_bind. rewrite E. intros [= <- <-].
      destruct (cmp_raises self other w ctx e1 w1 Hc) as [He [k Hk]]; [auto|].
      split; [done|]. by exists k, [].
Qed.

(** meet, join and composition: the one thing that raises once the result
    is minted is [_kure_error], in the receiver's context. *)
Lemma binop_raises o self other w ctx e w' :
  objects w !! Relation.context self = Some ctx ->
  pyrel.isValidDimension (PyInt (Relation.rows self)) (PyInt (Relation.cols self)) = true ->
  binop_method o self (PyRel other) w = (Raise e, w') ->
  e = last_error_exn (PyrelContext._context ctx) (engine w').
Proof.
  intros Hctx Hdim.
  destruct o; cbn [binop_method];
    unfold pyrel.meet, pyrel.join, pyrel.composition, pyrel.new,
      pyrel.Relation__init__, pyrel._is_relation, pyrel.attr_rel;
    cbn [isinstance_Relation negb truthy pyrel.int_value];
    rewrite Hdim; py_unfold; py_run; simplify_eq;
    (destruct (pyrel.bool_ord _); [done|]);
    (match goal with
     | |- context [pyrel._kure_error (A := ?T) ?self ?w1] =>
         rewrite (_kure_error_runs (A := T) self w1
                    (PyrelContext.Build (PyrelContext._context ctx)
                       (PyrelContext.ref ctx + 1)
                       (pyrel.dict_set (PyrelContext.ref ctx + 1) _
                          (PyrelContext.relations ctx))))
           by (cbn; apply lookup_insert_eq)
     end);
    by intros [= <- <-].
Qed.

(** C3 (as the code has it): no operation looks at the context of its
    operand.  For an operand that is a Relation, of whatever context, the
    outcome is the one the same operand would give as a member of any other
    context, the receiver's included; the comparisons go straight to the
    engine's comparison with both handles; meet, join and composition mint
    the result in the receiver's context and then call the engine's
    operation with the three handles.  Whatever is raised for a foreign
    operand is raised after these calls, by _kure_error, and is what the
    last-error record of the receiver's manager gives at that moment: the
    engine's error with its message and code when the record is there,
    ValueError when the manager has no record, AttributeError when the
    record has no message.  It is never an exception the module raises on
    its own, a PyrelException without a code. *)
Theorem foreign_operand_reaches_engine self other w ctx :
  Relation.context other <> Relation.context self ->
  objects w !! Relation.context self = Some ctx ->
  pyrel.isValidDimension (PyInt (Relation.rows self)) (PyInt (Relation.cols self)) = true ->
  (forall o c, binop_method o self (PyRel other) w
               = binop_method o self (PyRel (in_context c other)) w) /\
  (forall o c, cmpop_method o self (PyRel other) w
               = cmpop_method o self (PyRel (in_context c other)) w) /\
  (forall o, calls (after (binop_method o self (PyRel other)) w) =
               calls w ++ mint_calls ctx self w ++
                 [binop_call o (minted ctx self w) (Relation.rel self) (Relation.rel other)]) /\
  calls (after (pyrel.equals self (PyRel other)) w) =
    calls w ++ [kure._equals (Relation.rel self) (Relation.rel other)] /\
  calls (after (pyrel.isSubset self (PyRel other)) w) =
    calls w ++ [kure._includes (Relation.rel self) (Relation.rel other)] /\
  calls (after (pyrel.isSuperset self (PyRel other)) w) =
    calls w ++ [kure._includes (Relation.rel other) (Relation.rel self)] /\
  (forall o e w',
     binop_method o self (PyRel other) w = (Raise e, w') ->
     e = last_error_exn (PyrelContext._context ctx) (engine w') /\
     raised_locally e = false) /\
  (forall o e w',
     cmpop_method o self (PyRel other) w = (Raise e, w') ->
     e = last_error_exn (PyrelContext._context ctx) (engine w') /\
     raised_locally e = false /\
     exists k ks, calls w' = calls w ++ k :: ks).
Proof.
  intros _ Hctx Hdim. split_and!.
  - by intros [] c.
  - by intros [] c.
  - intros o. by apply binop_calls.
  - apply cmp_calls.
  - apply cmp_calls.
  - apply cmp_calls.
  - intros o e w' H. rewrite (binop_raises o self other w ctx e w' Hctx Hdim H).
    split; [done|apply last_error_exn_not_local].
  - intros o e w' H. destruct (cmpop_raises o self other w ctx e w' Hctx H) as [-> Hk].
    split_and!; [done|apply last_error_exn_not_local|done].
Qed.

End OtherContext.

(** ** The attributes of a result *)

Section ResultAttributes.
Context {K : kure.Engine}.
Implicit Types (self : Relation.t) (w : world).

(** Whatever the engine does with the handle afterwards, the relation object
    that transpose returns is the one [new] returned for the receiver's own
    [rows] and [cols]: its attributes were read then. *)
Lemma transpose_returns_minted self w res w' :
  pyrel.transpose self w = (Ok res, w') ->
  exists w1,
    pyrel.new (Relation.context self)
      (PyInt (Relation.rows self)) (PyInt (Relation.cols self)) PyNone w = (Ok res, w1).
Proof.
  unfold pyrel.transpose. unfold mbind at 1, py_bind at 1.
  destruct (pyrel.new _ _ _ _ w) as [[result|e] w1]; [|done].
  unfold mbind, py_bind, call. destruct (kure.exec _ _) as [ok s].
  destruct (pyrel.bool_ord ok).
  - intros [= <- <-]. by eexists.
  - kure_error_case @_kure_error_raises. done.
Qed.

(** The same for composition. *)
Lemma composition_returns_minted self other w res w' :
  pyrel.composition self other w = (Ok res, w') ->
  exists w1,
    pyrel.new (Relation.context self)
      (PyInt (Relation.rows self)) (PyInt (Relation.cols self)) PyNone w = (Ok res, w1).
Proof.
  unfold pyrel.composition, pyrel._is_relation, pyrel.attr_rel.
  destruct other; cbn [isinstance_Relation negb]; try done.
  unfold mbind at 1 2, py_bind at 1 2, mret at 1, py_ret at 1.
  destruct (pyrel.new _ _ _ _ w) as [[result|e] w1]; [|done].
  unfold mbind, py_bind, mret, py_ret, call. destruct (kure.exec _ _) as [ok s].
  destruct (pyrel.bool_ord ok).
  - intros [= <- <-]. by eexists.
  - kure_error_case @_kure_error_raises. done.
Qed.

End ResultAttributes.

(** ** The reference counter of a context *)

Section Counter.
Context {K : kure.Engine}.
Implicit Types (w : world) (d : list (Z * N)).


Lemma keeps_ret {A} (a : A) : keeps_objects (mret a).
Proof. done. Qed.

Lemma keeps_raise {A} e : keeps_objects (raise (A := A) e).
Proof. done. Qed.

Lemma keeps_call c : keeps_objects (call c).
Proof. intros w. unfold after, call. by destruct (kure.exec _ _). Qed.

Lemma keeps_bind {A B} (m : py A) (f : A -> py B) :
  keeps_objects m -> (forall a, keeps_objects (f a)) -> keeps_objects (m ≫= f).
Proof.
  intros Hm Hf w. specialize (Hm w). unfold after, mbind, py_bind in *.
  destruct (m w) as [[a|e] w1]; cbn in *; [|done].
  by rewrite <- Hm, <- (Hf a w1).
Qed.

Lemma keeps_try {A} (m h : py A) handles :
  keeps_objects m -> keeps_objects h -> keeps_objects (try_except m handles h).
Proof.
  intros Hm Hh w. specialize (Hm w). unfold after, try_except in *.
  destruct (m w) as [[a|e] w1]; cbn in *; [done|].
  destruct (handles e); [|done]. by rewrite <- Hm, <- (Hh w1).
Qed.

Ltac keeps_step :=
  lazymatch goal with
  | |- keeps_objects (mret _) => apply keeps_ret
  | |- keeps_objects (raise _) => apply keeps_raise
  | |- keeps_objects (call _) => apply keeps_call
  | |- keeps_objects (?m ≫= ?f) => apply (keeps_bind m f); [|intros ?]
  | |- keeps_objects (try_except ?m ?hs ?h) => apply (keeps_try m h hs)
  end.

Lemma keeps__kure_error {A} self : keeps_objects (pyrel._kure_error (A := A) self).
Proof. intros w. unfold after. by destruct (_kure_error_raises (A := A) self w) as [e ->]. Qed.

Lemma keeps_Relation__init__ c ref rel : keeps_objects (pyrel.Relation__init__ c ref rel).
Proof.
  unfold pyrel.Relation__init__. repeat keeps_step.
Qed.

Lemma keeps_set_bit self row col yesno : keeps_objects (pyrel.set_bit self row col yesno).
Proof.
  unfold pyrel.set_bit. destruct (as_c_int row), (as_c_int col); try apply keeps_raise.
  repeat keeps_step.
  destruct (negb _); [apply keeps__kure_error|apply keeps_ret].
Qed.

Lemma keeps_set_bits_loop self items yesno :
  keeps_objects (pyrel.set_bits_loop self items yesno).
Proof.
  induction items as [|item items IH]; [apply keeps_ret|].
  cbn [pyrel.set_bits_loop].
  destruct (py_iter item) as [[|row [|col [|? ?]]]|]; try apply keeps_raise.
  keeps_step; [apply keeps_set_bit|done].
Qed.

Lemma keeps_set_bits self bits yesno : keeps_objects (pyrel.set_bits self bits yesno).
Proof.
  unfold pyrel.set_bits. keeps_step; [|apply keeps_raise].
  destruct (py_iter bits); [apply keeps_set_bits_loop|apply keeps_raise].
Qed.

(** *** The dict *)

Lemma keys_dict_set k v d :
  pyrel.keys (pyrel.dict_set k v d) =
    if decide (k ∈ pyrel.keys d) then pyrel.keys d else pyrel.keys d ++ [k].
Proof.
  unfold pyrel.keys. induction d as [|[k' v'] d IH]; cbn.
  - rewrite decide_False; [done|]. by intros ?%elem_of_nil.
  - destruct (Z.eqb_spec k' k) as [->|Hne]; cbn.
    + rewrite decide_True; [done|]. apply elem_of_cons. by left.
    + rewrite IH. destruct (decide (k ∈ fst <$> d)) as [Hin|Hnin].
      * rewrite decide_True; [done|]. apply elem_of_cons. by right.
      * rewrite decide_False; [done|]. intros [?|?]%elem_of_cons; congruence.
Qed.

Lemma keys_dict_del k d x : x ∈ pyrel.keys (pyrel.dict_del k d) -> x ∈ pyrel.keys d.
Proof.
  unfold pyrel.keys. induction d as [|[k' v'] d IH]; cbn; [done|].
  destruct (k' =? k); cbn.
  - intros ?. apply elem_of_cons. by right.
  - intros [->|?]%elem_of_cons; apply elem_of_cons; auto.
Qed.

Lemma dict_popitem_Some d kv rest :
  pyrel.dict_popitem d = Some (kv, rest) -> d = rest ++ [kv].
Proof.
  unfold pyrel.dict_popitem. destruct (rev d) as [|x r] eqn:E; [done|].
  intros [= <- <-]. apply (f_equal (@rev _)) in E. rewrite rev_involutive in E.
  by rewrite E.
Qed.

Lemma dict_popitem_None d : pyrel.dict_popitem d = None -> d = [].
Proof.
  unfold pyrel.dict_popitem. destruct (rev d) as [|x r] eqn:E; [|done].
  intros _. apply (f_equal (@rev _)) in E. by rewrite rev_involutive in E.
Qed.

(** *** One operation *)

Lemma filter_not_in_self (l l' : list Z) :
  (forall x, x ∈ l' -> x ∈ l) -> filter (fun k => k ∉ l) l' = [].
Proof.
  intros H. induction l' as [|x l' IH]; [done|].
  rewrite filter_cons_False.
  - apply IH. intros y Hy. apply H, elem_of_cons. by right.
  - intros Hx. apply Hx, H, elem_of_cons. by left.
Qed.

Lemma evolves_same c w w' : objects w' = objects w -> evolves c w w'.
Proof.
  intros H. unfold evolves, assigned, counter_covers, counter, tracked. rewrite H.
  split_and!; [lia| |done]. left. by apply filter_not_in_self.
Qed.

Lemma evolves_shrink c w w' ctx d' :
  objects w !! c = Some ctx ->
  objects w' = <[c := PyrelContext.Build (PyrelContext._context ctx)
                        (PyrelContext.ref ctx) d']> (objects w) ->
  (forall x, x ∈ pyrel.keys d' -> x ∈ pyrel.keys (PyrelContext.relations ctx)) ->
  evolves c w w'.
Proof.
  intros Hc H Hsub. unfold evolves, assigned, counter_covers, counter, tracked.
  rewrite H, Hc, lookup_insert_eq. cbn. split_and!; [lia| |].
  - left. by apply filter_not_in_self.
  - rewrite !Forall_forall. intros Hall x Hx. by apply Hall, Hsub.
Qed.

Lemma evolves_assign c w w' ctx rel :
  objects w !! c = Some ctx ->
  objects w' = <[c := PyrelContext.Build (PyrelContext._context ctx)
                        (PyrelContext.ref ctx + 1)
                        (pyrel.dict_set (PyrelContext.ref ctx + 1) rel
                           (PyrelContext.relations ctx))]> (objects w) ->
  evolves c w w'.
Proof.
  intros Hc H. unfold evolves, assigned, counter_covers, counter, tracked.
  rewrite H, Hc, lookup_insert_eq. cbn. rewrite keys_dict_set.
  destruct (decide _) as [Hin|Hnin]; split_and!; try lia.
  - left. by apply filter_not_in_self.
  - rewrite !Forall_forall. intros Hall x Hx. specialize (Hall x Hx). lia.
  - right. split; [lia|]. rewrite filter_app, filter_not_in_self by done.
    by rewrite filter_cons_True, filter_nil.
  - rewrite !Forall_forall. intros Hall x [Hx| ->%list_elem_of_singleton]%elem_of_app.
    + specialize (Hall x Hx). lia.
    + lia.
Qed.

(** *** The operations *)

Lemma after_bind {A B} (m : py A) (f : A -> py B) w :
  after (m ≫= f) w =
    match m w with
    | (Ok a, w1) => after (f a) w1
    | (Raise _, w1) => w1
    end.
Proof. unfold after, mbind, py_bind. by destruct (m w) as [[a|e] w1]. Qed.

Lemma new_evolves c rows cols bits w :
  evolves c w (after (pyrel.new c rows cols bits) w).
Proof.
  unfold pyrel.new. destruct (negb _); [by apply evolves_same|].
  rewrite after_bind. unfold get_context at 1.
  destruct (objects w !! c) as [ctx|] eqn:Hc; [|by apply evolves_same].
  rewrite after_bind. unfold call at 1. destruct (kure.exec _ _) as [rel s].
  rewrite after_bind. unfold get_context at 1. cbn [objects]. rewrite Hc.
  rewrite after_bind. unfold set_context at 1. cbn [engine calls objects next_id].
  apply (evolves_assign c w _ ctx rel Hc).
  match goal with |- objects (after ?m ?w2) = _ =>
    assert (keeps_objects m) as Hk; [|by rewrite (Hk w2)] end.
  keeps_step; [apply keeps_Relation__init__|].
  destruct (truthy bits); repeat keeps_step. apply keeps_set_bits.
Qed.

Lemma _add_evolves c rel w : evolves c w (after (pyrel._add c rel) w).
Proof.
  unfold pyrel._add. rewrite after_bind. unfold get_context at 1.
  destruct (objects w !! c) as [ctx|] eqn:Hc; [|by apply evolves_same].
  rewrite after_bind. unfold set_context at 1.
  by apply (evolves_assign c w _ ctx rel Hc).
Qed.

Lemma delete_evolves c toDelete w : evolves c w (after (pyrel.delete c toDelete) w).
Proof.
  unfold pyrel.delete. rewrite after_bind. unfold get_context at 1.
  destruct (objects w !! c) as [ctx|] eqn:Hc; [|by apply evolves_same].
  destruct (pyrel.dict_get _ _) as [rel|]; [|by apply evolves_same].
  destruct (negb _); [|by apply evolves_same].
  rewrite after_bind. unfold call at 1. destruct (kure.exec _ _) as [[] s].
  rewrite after_bind. unfold get_context at 1. cbn [objects]. rewrite Hc.
  eapply (evolves_shrink c w _ ctx); [done|done|]. apply keys_dict_del.
Qed.

(** The loop of [clean] only takes numbers out of the mapping, and leaves it
    empty: the fuel, the size of the mapping, is enough. *)
Lemma clean_loop_shrinks c fuel w ctx :
  objects w !! c = Some ctx ->
  (length (PyrelContext.relations ctx) <= fuel)%nat ->
  pyrel.clean_loop fuel c w = (Ok tt, after (pyrel.clean_loop fuel c) w) /\
  (objects (after (pyrel.clean_loop fuel c) w) = objects w /\
     PyrelContext.relations ctx = []
   \/ objects (after (pyrel.clean_loop fuel c) w) =
        <[c := PyrelContext.Build (PyrelContext._context ctx)
                 (PyrelContext.ref ctx) []]> (objects w)).
Proof.
  revert w ctx. induction fuel as [|fuel IH]; intros w ctx Hc Hlen.
  - destruct ctx as [kc ref [|kv d]]; cbn in Hlen; [|lia].
    unfold after. cbn. py_unfold. rewrite Hc. cbn. auto.
  - destruct (pyrel.dict_popitem (PyrelContext.relations ctx))
      as [[[k rel] rest]|] eqn:Hpop.
    + pose proof (dict_popitem_Some _ _ _ Hpop) as Hd.
      set (w2 := World (kure.exec (kure._rel_destroy rel) (engine w)).2
                   (calls w ++ [kure._rel_destroy rel])
                   (<[c := PyrelContext.Build (PyrelContext._context ctx)
                            (PyrelContext.ref ctx) rest]> (objects w))
                   (next_id w)).
      assert (pyrel.clean_loop (S fuel) c w = pyrel.clean_loop fuel c w2) as Hstep.
      { cbn [pyrel.clean_loop]. py_unfold. rewrite Hc, Hpop. cbn.
        subst w2. destruct (kure.exec _ _) as [[] s]. cbn.
        by destruct fuel. }
      assert (objects w2 !! c = Some (PyrelContext.Build (PyrelContext._context ctx)
                                        (PyrelContext.ref ctx) rest)) as Hc2.
      { subst w2. cbn. apply lookup_insert_eq. }
      destruct (IH w2 _ Hc2) as [Hrun Hobj].
      { cbn. rewrite Hd, length_app in Hlen. cbn in Hlen. lia. }
      unfold after in *. rewrite !Hstep.
      split; [done|]. right. cbn in Hobj.
      destruct Hobj as [[-> ->]| ->]; subst w2; cbn; [done|].
      by rewrite insert_insert_eq.
    + apply dict_popitem_None in Hpop as Hd.
      cbn [pyrel.clean_loop]. unfold after. py_unfold. rewrite Hc, Hpop. cbn. auto.
Qed.

Lemma clean_evolves c w : evolves c w (after (pyrel.clean c) w).
Proof.
  unfold pyrel.clean. rewrite after_bind. unfold get_context at 1.
  destruct (objects w !! c) as [ctx|] eqn:Hc; [|by apply evolves_same].
  destruct (clean_loop_shrinks c _ w ctx Hc (le_n _)) as [_ [[H _]|H]].
  - by apply evolves_same.
  - eapply (evolves_shrink c w _ ctx); [done|done|]. by intros x ?%elem_of_nil.
Qed.

Lemma ctx_step_evolves c op w : evolves c w (after (ctx_step c op) w).
Proof.
  destruct op; cbn [ctx_step].
  - rewrite after_bind. pose proof (new_evolves c rows cols bits w) as H.
    unfold after in *. by destruct (pyrel.new _ _ _ _ _) as [[?|?] ?].
  - rewrite after_bind. pose proof (_add_evolves c rel w) as H.
    unfold after in *. by destruct (pyrel._add _ _ _) as [[?|?] ?].
  - apply delete_evolves.
  - apply clean_evolves.
Qed.

Lemma history_counters c ops w :
  Forall (fun x => counter c w <= x) (counter c <$> history c ops w).
Proof.
  revert w. induction ops as [|op ops IH]; intros w; cbn.
  - by repeat constructor.
  - constructor; [done|].
    destruct (ctx_step_evolves c op w) as [Hle _].
    eapply Forall_impl; [apply IH|]. cbn. intros x ?. lia.
Qed.

Lemma history_sorted c ops w :
  StronglySorted Z.le (counter c <$> history c ops w).
Proof.
  revert w. induction ops as [|op ops IH]; intros w; cbn.
  - by repeat constructor.
  - constructor; [apply IH|].
    destruct (ctx_step_evolves c op w) as [Hle _].
    eapply Forall_impl; [apply history_counters|]. cbn. intros x ?. lia.
Qed.

Lemma assigned_refs_above c ops w :
  counter_covers c w ->
  StronglySorted Z.lt (assigned_refs c ops w) /\
  Forall (fun k => counter c w < k) (assigned_refs c ops w).
Proof.
  revert w. induction ops as [|op ops IH]; intros w Hcov; cbn.
  - split; constructor.
  - destruct (ctx_step_evolves c op w) as (Hle & Hass & Hcov').
    destruct (IH _ (Hcov' Hcov)) as [Hs Ha].
    assert (Forall (fun k => counter c w < k)
              (assigned_refs c ops (after (ctx_step c op) w))) as Ha'.
    { eapply Forall_impl; [exact Ha|]. cbn. intros x ?. lia. }
    destruct Hass as [-> | [Hlt ->]]; cbn; [done|].
    split; repeat constructor; done.
Qed.

Lemma history_covers c ops w w0 :
  counter_covers c w -> w0 ∈ history c ops w -> counter_covers c w0.
Proof.
  revert w. induction ops as [|op ops IH]; intros w Hcov; cbn [history].
  - by intros ->%list_elem_of_singleton.
  - intros [->|Hin]%elem_of_cons; [done|].
    destruct (ctx_step_evolves c op w) as (_ & _ & Hcov'). by apply (IH _ (Hcov' Hcov)).
Qed.

Lemma StronglySorted_lt_NoDup (l : list Z) : StronglySorted Z.lt l -> NoDup l.
Proof.
  induction 1 as [|x l Hs IH Hall]; constructor; [|done].
  intros Hin. rewrite Forall_forall in Hall. specialize (Hall x Hin). lia.
Qed.

End Counter.

(** ** The numbers handed out *)

(** One step of a proof that a computation leaves the context objects
    alone. *)
Ltac frame_step :=
  lazymatch goal with
  | |- keeps_objects (mret _) => apply keeps_ret
  | |- keeps_objects (raise _) => apply keeps_raise
  | |- keeps_objects (call _) => apply keeps_call
  | |- keeps_objects (pyrel._kure_error _) => apply keeps__kure_error
  | |- keeps_objects (pyrel.set_bits _ _ _) => apply keeps_set_bits
  | |- keeps_objects (pyrel.Relation__init__ _ _ _) => apply keeps_Relation__init__
  | |- keeps_objects (?m ≫= ?f) => apply (keeps_bind m f); [|intros ?]
  | |- keeps_objects (if ?b then _ else _) => destruct b
  end.

Section HandedOut.
Context {K : kure.Engine}.
Implicit Types (w : world) (d : list (Z * N)) (k : Z).

Lemma dict_get_set_eq k v d : pyrel.dict_get k (pyrel.dict_set k v d) = Some v.
Proof.
  induction d as [|[k' v'] d IH]; cbn.
  - by rewrite Z.eqb_refl.
  - destruct (Z.eqb_spec k' k) as [->|Hne]; cbn.
    + by rewrite Z.eqb_refl.
    + by destruct (Z.eqb_spec k' k).
Qed.

Lemma objects_after_bind {A B} (m : py A) (f : A -> py B) w :
  (forall a, keeps_objects (f a)) ->
  objects (after (m ≫= f) w) = objects (after m w).
Proof.
  intros Hf. rewrite after_bind. unfold after.
  destruct (m w) as [[a|e] w1]; [apply Hf|done].
Qed.

Lemma outcome_bind_Ok {A B} (m : py A) (f : A -> py B) w b :
  outcome (m ≫= f) w = Ok b ->
  exists a, outcome m w = Ok a /\ outcome (f a) (after m w) = Ok b.
Proof.
  unfold outcome, after, mbind, py_bind.
  destruct (m w) as [[a|e] w1]; [|done]. intros H. by exists a.
Qed.

(** What [new] does to the context once its check has passed, whatever
    becomes of the bits. *)
Lemma new_registered c rows cols bits w ctx :
  objects w !! c = Some ctx ->
  pyrel.isValidDimension rows cols = true ->
  objects (after (pyrel.new c rows cols bits) w) =
    <[c := PyrelContext.Build (PyrelContext._context ctx) (PyrelContext.ref ctx + 1)
              (pyrel.dict_set (PyrelContext.ref ctx + 1)
                 (returned (create_call ctx rows cols) w)
                 (PyrelContext.relations ctx))]> (objects w) /\
  (forall rel, outcome (pyrel.new c rows cols bits) w = Ok rel ->
     Relation.context rel = c /\
     Relation.ref rel = PyrelContext.ref ctx + 1 /\
     Relation.rel rel = returned (create_call ctx rows cols) w).
Proof.
  intros Hc Hdim. unfold pyrel.new, returned, create_call. rewrite Hdim. cbn [negb].
  split.
  - rewrite after_bind. unfold get_context at 1. rewrite Hc.
    rewrite after_bind. unfold call at 1. destruct (kure.exec _ _) as [p s].
    rewrite after_bind. unfold get_context at 1. cbn [objects]. rewrite Hc.
    rewrite after_bind. unfold set_context at 1. cbn [engine calls objects next_id].
    match goal with |- objects (after ?m ?w2) = _ =>
      assert (keeps_objects m) as Hk; [|by rewrite (Hk w2)] end.
    repeat frame_step.
  - intros rel. unfold outcome. unfold pyrel.Relation__init__. py_unfold.
    rewrite Hc. py_run.
    destruct (truthy bits); [|by intros [= <-]].
    destruct (pyrel.set_bits _ _ _ _) as [[[]|e] w4]; [|done]. by intros [= <-].
Qed.

(** What [_add] does to the context, and what it returns. *)
Lemma _add_registered c rel w ctx :
  objects w !! c = Some ctx ->
  pyrel._add c rel w =
    (Ok (PyrelContext.ref ctx + 1),
     World (engine w) (calls w)
       (<[c := PyrelContext.Build (PyrelContext._context ctx) (PyrelContext.ref ctx + 1)
                 (pyrel.dict_set (PyrelContext.ref ctx + 1) rel
                    (PyrelContext.relations ctx))]> (objects w))
       (next_id w)).
Proof. intros Hc. unfold pyrel._add. py_unfold. by rewrite Hc. Qed.

(** A context whose counter has gone up by one and whose mapping has the
    new value of the counter bound to [h]. *)
Lemma registered_step c w w' ctx h :
  objects w !! c = Some ctx ->
  objects w' =
    <[c := PyrelContext.Build (PyrelContext._context ctx) (PyrelContext.ref ctx + 1)
              (pyrel.dict_set (PyrelContext.ref ctx + 1) h
                 (PyrelContext.relations ctx))]> (objects w) ->
  let n := counter c w + 1 in
  counter c w' = n /\
  handle_of c n w' = Some h /\
  (counter_covers c w -> (n ∉ tracked c w) /\ assigned c w w' = [n]).
Proof.
  intros Hc Hobj. cbn zeta. unfold counter, handle_of, counter_covers, assigned, tracked.
  rewrite Hobj, lookup_insert_eq, Hc. cbn. split_and!; [done|apply dict_get_set_eq|].
  intros Hcov.
  assert (PyrelContext.ref ctx + 1 ∉ pyrel.keys (PyrelContext.relations ctx)) as Hnew.
  { rewrite Forall_forall in Hcov. intros Hin. specialize (Hcov _ Hin).
    unfold counter in Hcov. rewrite Hc in Hcov. lia. }
  split; [done|]. rewrite keys_dict_set, decide_False by done.
  rewrite filter_app, filter_not_in_self by done.
  by rewrite filter_cons_True, filter_nil.
Qed.

(** The number an operation hands out is the value the counter has just
    reached, one more than before; the mapping binds it to the handle it
    was handed out with; and it is a number the mapping did not track, the
    one number that has entered the mapping. *)
Lemma handed_out_step c op w n h :
  handed_out c op w = Some (n, h) ->
  let w' := after (ctx_step c op) w in
  n = counter c w + 1 /\
  counter c w' = n /\
  handle_of c n w' = Some h /\
  (counter_covers c w -> (n ∉ tracked c w) /\ assigned c w w' = [n]).
Proof.
  cbn zeta. destruct op as [rows cols bits|rel| |]; cbn [handed_out ctx_step]; [| |done|done].
  - destruct (outcome (pyrel.new c rows cols bits) w) as [r|e] eqn:Hout; [|done].
    intros [= <- <-].
    destruct (pyrel.isValidDimension rows cols) eqn:Hdim;
      [|by unfold outcome in Hout; rewrite new_rejects in Hout].
    destruct (objects w !! c) as [ctx|] eqn:Hc.
    + destruct (new_registered c rows cols bits w ctx Hc Hdim) as [Hobj Hres].
      destruct (Hres r Hout) as (_ & Href & Hrel).
      assert (after (pyrel.new c rows cols bits;; mret tt) w
              = after (pyrel.new c rows cols bits) w) as ->.
      { rewrite after_bind. unfold after.
        by destruct (pyrel.new c rows cols bits w) as [[?|?] ?]. }
      rewrite <- Hrel in Hobj.
      pose proof (registered_step c w _ ctx (Relation.rel r) Hc Hobj) as H.
      cbn zeta in H. assert (counter c w = PyrelContext.ref ctx) as Hcnt
        by (unfold counter; by rewrite Hc).
      rewrite Href, <- Hcnt. split; [done|exact H].
    + unfold outcome, pyrel.new in Hout. rewrite Hdim in Hout. cbn [negb] in Hout.
      unfold get_context, mbind, py_bind in Hout. by rewrite Hc in Hout.
  - destruct (objects w !! c) as [ctx|] eqn:Hc.
    + unfold outcome. rewrite (_add_registered c rel w ctx Hc). cbn [fst].
      intros [= <- <-].
      assert (after (pyrel._add c rel;; mret tt) w = after (pyrel._add c rel) w) as ->.
      { rewrite after_bind. unfold after. by rewrite (_add_registered c rel w ctx Hc). }
      assert (objects (after (pyrel._add c rel) w) =
                <[c := PyrelContext.Build (PyrelContext._context ctx)
                         (PyrelContext.ref ctx + 1)
                         (pyrel.dict_set (PyrelContext.ref ctx + 1) rel
                            (PyrelContext.relations ctx))]> (objects w)) as Hobj.
      { unfold after. by rewrite (_add_registered c rel w ctx Hc). }
      pose proof (registered_step c w _ ctx rel Hc Hobj) as H.
      cbn zeta in H. assert (counter c w = PyrelContext.ref ctx) as Hcnt
        by (unfold counter; by rewrite Hc).
      rewrite <- Hcnt. split; [done|exact H].
    + unfold outcome, pyrel._add, get_context, mbind, py_bind. by rewrite Hc.
Qed.

(** Along a sequence of operations the numbers handed out go up, each above
    the counter as it stood at the start, and they are among the numbers
    that have entered the mapping, in the same order. *)
Lemma handed_out_refs_above c ops w :
  counter_covers c w ->
  StronglySorted Z.lt (handed_out_refs c ops w) /\
  Forall (fun k => counter c w < k) (handed_out_refs c ops w) /\
  handed_out_refs c ops w `sublist_of` assigned_refs c ops w.
Proof.
  revert w. induction ops as [|op ops IH]; intros w Hcov; cbn [handed_out_refs assigned_refs].
  - split_and!; constructor.
  - cbn zeta. destruct (ctx_step_evolves c op w) as (Hle & _ & Hcov').
    destruct (IH _ (Hcov' Hcov)) as (Hs & Ha & Hsub).
    destruct (handed_out c op w) as [[n h]|] eqn:Hout.
    + destruct (handed_out_step c op w n h Hout) as (Hn & Hcnt & _ & Hnew).
      destruct (Hnew Hcov) as [_ ->]. rewrite Hcnt in Ha. split_and!.
      * by constructor.
      * constructor; [lia|]. eapply Forall_impl; [exact Ha|]. cbn. intros x ?. lia.
      * cbn. by constructor.
    + split_and!.
      * done.
      * eapply Forall_impl; [exact Ha|]. cbn. intros x ?. lia.
      * by apply sublist_inserts_l.
Qed.

(** C9: along every sequence of new, _add, delete and clean on a context,
    the reference counter never decreases.  The numbers handed out, the ref
    of each relation that new returns and each number that _add returns,
    are strictly increasing, each above the counter as it stood at the
    start and none a number tracked then: no number is handed out twice,
    deletions in between or not.  Each is the value the counter has just
    reached, one more than before the operation, and the mapping binds it,
    a number it did not track, to the handle it was handed out with.  The
    numbers that enter the mapping (those handed out, and those of
    relations that new registered before it raised) are strictly
    increasing too. *)
Theorem reference_numbers_never_reused c ops w :
  counter_covers c w ->
  StronglySorted Z.le (counter c <$> history c ops w) /\
  StronglySorted Z.lt (assigned_refs c ops w) /\
  Forall (fun k => counter c w < k /\ k ∉ tracked c w) (assigned_refs c ops w) /\
  StronglySorted Z.lt (handed_out_refs c ops w) /\
  NoDup (handed_out_refs c ops w) /\
  Forall (fun k => counter c w < k /\ k ∉ tracked c w) (handed_out_refs c ops w) /\
  handed_out_refs c ops w `sublist_of` assigned_refs c ops w /\
  (forall w0 op n h,
     w0 ∈ history c ops w ->
     handed_out c op w0 = Some (n, h) ->
     n = counter c w0 + 1 /\
     counter c (after (ctx_step c op) w0) = n /\
     (n ∉ tracked c w0) /\
     handle_of c n (after (ctx_step c op) w0) = Some h /\
     assigned c w0 (after (ctx_step c op) w0) = [n]).
Proof.
  intros Hcov. destruct (assigned_refs_above c ops w Hcov) as [Hs Ha].
  destruct (handed_out_refs_above c ops w Hcov) as (Hhs & Hha & Hsub).
  assert (forall l, Forall (fun k => counter c w < k) l ->
                    Forall (fun k => counter c w < k /\ k ∉ tracked c w) l) as Hfresh.
  { intros l Hl. eapply Forall_impl; [exact Hl|]. cbn. intros k Hk. split; [done|].
    intros Hin. unfold counter_covers in Hcov. rewrite Forall_forall in Hcov.
    specialize (Hcov k Hin). lia. }
  split_and!; [apply history_sorted|done|by apply Hfresh|done| |by apply Hfresh|done|].
  - eapply StronglySorted_lt_NoDup, Hhs.
  - intros w0 op n h Hin Hout.
    destruct (handed_out_step c op w0 n h Hout) as (Hn & Hcnt & Hh & Hnew).
    destruct (Hnew (history_covers c ops w w0 Hcov Hin)) as [Hnt Hass].
    by split_and!.
Qed.

End HandedOut.

(** ** On the reference engine *)

Section Reference.
#[local] Existing Instance Kure2.engine.
Implicit Types (self : Relation.t) (w : world).

Lemma c_int_id z : 0 <= z < 2 ^ 31 -> c_int z = z.
Proof. intros H. unfold c_int. rewrite Z.mod_small; lia. Qed.

Lemma valid_c_int_dimension r k :
  c_int_dimension r k -> pyrel.isValidDimension (PyInt r) (PyInt k) = true.
Proof. unfold c_int_dimension. cbn. lia. Qed.

Lemma fresh_nextb_correct s : fresh_nextb s = true -> fresh_next s.
Proof.
  unfold fresh_nextb, fresh_next.
  intros [Hr Hc]%andb_prop. apply bool_decide_eq_true in Hr, Hc.
  split; intros p Hp.
  - destruct (Kure2.rels s !! p) eqn:E; [|done]. specialize (Hr p _ E). cbn in Hr. lia.
  - destruct (Kure2.contexts s !! p) eqn:E; [|done]. specialize (Hc p _ E). cbn in Hc. lia.
Qed.

(** *** Minting *)

(** [new] with dimensions in range, in a context whose manager is live. *)
Lemma new_on_live c ctx r k w :
  objects w !! c = Some ctx ->
  is_Some (Kure2.contexts (engine w) !! PyrelContext._context ctx) ->
  c_int_dimension r k ->
  pyrel.new c (PyInt r) (PyInt k) PyNone w =
   (Ok (Relation.Build c (PyrelContext.ref ctx + 1) (Kure2.next (engine w)) r k),
    World
      (Kure2.State (N.succ (Kure2.next (engine w))) (Kure2.contexts (engine w))
         (<[Kure2.next (engine w) :=
              Kure2.Rel (PyrelContext._context ctx) r k (fun _ _ => false)]>
            (Kure2.rels (engine w))))
      (calls w ++
         [kure._rel_new_with_size_si (PyrelContext._context ctx) r k;
          kure._rel_get_rows_si (Kure2.next (engine w));
          kure._rel_get_cols_si (Kure2.next (engine w))])
      (<[c := PyrelContext.Build (PyrelContext._context ctx) (PyrelContext.ref ctx + 1)
                (pyrel.dict_set (PyrelContext.ref ctx + 1) (Kure2.next (engine w))
                   (PyrelContext.relations ctx))]> (objects w))
      (next_id w)).
Proof.
  intros Hc [kc Hkc] Hdim. unfold pyrel.new.
  rewrite (valid_c_int_dimension _ _ Hdim).
  cbn [negb pyrel.int_value truthy].
  rewrite !c_int_id by (unfold c_int_dimension in Hdim; lia).
  unfold pyrel.Relation__init__. py_unfold.
  cbn [kure.exec Kure2.engine Kure2.exec].
  rewrite Hc. unfold Kure2.rel_new_with_size_si. rewrite Hkc. cbn. rewrite Hc. cbn.
  rewrite !lookup_insert_eq. cbn. by rewrite <- !app_assoc.
Qed.

(** What [new] returns is live, and addresses stay fresh. *)
Lemma new_is_live c ctx r k w :
  objects w !! c = Some ctx ->
  is_Some (Kure2.contexts (engine w) !! PyrelContext._context ctx) ->
  c_int_dimension r k ->
  fresh_next (engine w) ->
  exists rel w',
    pyrel.new c (PyInt r) (PyInt k) PyNone w = (Ok rel, w') /\
    live w' rel /\ fresh_next (engine w').
Proof.
  intros Hc Hkc Hdim [Hfr Hfc]. eexists _, _.
  rewrite (new_on_live c ctx r k w Hc Hkc Hdim). split; [done|]. split.
  - eexists _, _. cbn. rewrite !lookup_insert_eq. split_and!; done.
  - split; cbn; intros p Hp.
    + rewrite lookup_insert_ne by lia. apply Hfr. lia.
    + apply Hfc. lia.
Qed.

Lemma init_fresh_next : fresh_next Kure2.init.
Proof. split; intros p _; apply lookup_empty. Qed.

(** C4 (as the code has it): in a context whose manager is live, minting
    with integers that are both zero or both positive and that a C int
    holds gives a relation whose rows and cols attributes are the requested
    values.  Every other combination, that is every pair of values that is
    not two integers both zero or both positive (a value that is not an
    int, a negative one, one zero and one not), is refused: new raises
    InvalidDimension with the world unchanged, no call made.  And nothing
    else is refused: two integers both zero or both positive never give
    InvalidDimension, and without bits new returns a relation after the
    engine's create call and the two reads of its dimensions. *)
Theorem mint_round_trip c ctx w :
  objects w !! c = Some ctx ->
  is_Some (Kure2.contexts (engine w) !! PyrelContext._context ctx) ->
  (forall r k, c_int_dimension r k ->
     exists rel w',
       pyrel.new c (PyInt r) (PyInt k) PyNone w = (Ok rel, w') /\
       Relation.rows rel = r /\ Relation.cols rel = k) /\
  (forall rows cols bits,
     ~ dimension_invariant rows cols ->
     pyrel.new c rows cols bits w = (Raise InvalidDimension, w)) /\
  (forall rows cols bits,
     dimension_invariant rows cols ->
     outcome (pyrel.new c rows cols bits) w <> Raise InvalidDimension) /\
  (forall rows cols,
     dimension_invariant rows cols ->
     exists rel,
       outcome (pyrel.new c rows cols PyNone) w = Ok rel /\
       calls (after (pyrel.new c rows cols PyNone) w) =
         calls w ++ [create_call ctx rows cols;
                     kure._rel_get_rows_si (returned (create_call ctx rows cols) w);
                     kure._rel_get_cols_si (returned (create_call ctx rows cols) w)]).
Proof.
  intros Hc Hkc. split_and!.
  - intros r k Hdim. eexists _, _. by rewrite (new_on_live c ctx r k w Hc Hkc Hdim).
  - intros rows cols bits. apply new_refuses.
  - intros rows cols bits. apply new_accepts.
  - intros rows cols Hdim.
    destruct (new_without_bits c rows cols w ctx Hc Hdim) as (rel & Hout & _ & _ & Hcalls).
    by exists rel.
Qed.

(** *** Bits *)

Lemma set_bit_sets self r k yesno w w1 :
  pyrel.set_bit self (PyInt r) (PyInt k) yesno w = (Ok tt, w1) ->
  bit_at (engine w1) (Relation.rel self) (c_int r) (c_int k) = Some yesno /\
  (forall i j, bit_at (engine w) (Relation.rel self) i j = Some yesno ->
               bit_at (engine w1) (Relation.rel self) i j = Some yesno).
Proof.
  unfold pyrel.set_bit. cbn [as_c_int]. py_unfold.
  cbn [kure.exec Kure2.engine Kure2.exec]. unfold Kure2.set_bit_si, bit_at.
  destruct (Kure2.rels (engine w) !! Relation.rel self) as [kr|] eqn:Hkr; cbn.
  - destruct (Kure2.in_range kr (c_int r) (c_int k)); cbn.
    + intros [= <-]. cbn. rewrite lookup_insert_eq. cbn.
      rewrite !Z.eqb_refl. cbn. split.
      * by destruct yesno.
      * intros i j [= Hb]. f_equal.
        destruct ((i =? c_int r) && (j =? c_int k)); [by destruct yesno|done].
    + match goal with |- context [pyrel._kure_error self ?w'] =>
        destruct (_kure_error_raises (A := unit) self w') as [e ->] end. done.
  - match goal with |- context [pyrel._kure_error self ?w'] =>
      destruct (_kure_error_raises (A := unit) self w') as [e ->] end. done.
Qed.

Lemma set_bits_loop_sets self coords yesno w w1 :
  pyrel.set_bits_loop self (pair <$> coords) yesno w = (Ok tt, w1) ->
  (forall i j, bit_at (engine w) (Relation.rel self) i j = Some yesno ->
               bit_at (engine w1) (Relation.rel self) i j = Some yesno) /\
  (forall rc, rc ∈ coords ->
     bit_at (engine w1) (Relation.rel self) (c_int rc.1) (c_int rc.2) = Some yesno).
Proof.
  revert w. induction coords as [|[r k] coords IH]; intros w.
  - cbn. intros [= <-]. split; [done|]. by intros rc ?%elem_of_nil.
  - cbn [fmap list_fmap pyrel.set_bits_loop pair py_iter fst snd].
    unfold mbind, py_bind.
    destruct (pyrel.set_bit self (PyInt r) (PyInt k) yesno w) as [[[]|e] w'] eqn:Hset;
      [|done].
    destruct (set_bit_sets _ _ _ _ _ _ Hset) as [Hhere Hkeep].
    intros [Hkeep' Hall]%IH. split.
    + intros i j Hb. by apply Hkeep', Hkeep.
    + intros rc [->|Hin]%elem_of_cons; [|by apply Hall]. by apply Hkeep'.
Qed.

(** C7 (as the code has it): set_bits applies set_bit to the pairs in the
    order of the list, one engine call each.  When the element that
    follows cannot be unpacked into two values, InvalidBitPair is raised
    with no call made for it and with the world the earlier pairs have
    produced: their bits keep the value given, nothing is rolled back.
    When it unpacks into two values of which one is not an integer, the
    exception is the ArgumentError of the argument conversion, which
    set_bits lets through, again with no call and no rollback. *)
Theorem set_bits_in_order_without_rollback self coords bad post yesno w w1 :
  pyrel.set_bits self (PyList (pair <$> coords)) yesno w = (Ok tt, w1) ->
  calls w1 = calls w ++ (set_bit_call self yesno <$> coords) /\
  (forall rc, rc ∈ coords ->
     bit_at (engine w1) (Relation.rel self) (c_int rc.1) (c_int rc.2) = Some yesno) /\
  (unpacks_to_pair bad = false ->
     pyrel.set_bits self (PyList ((pair <$> coords) ++ bad :: post)) yesno w
       = (Raise InvalidBitPair, w1)) /\
  (forall row col,
     py_iter bad = Some [row; col] ->
     as_c_int row = None \/ as_c_int col = None ->
     pyrel.set_bits self (PyList ((pair <$> coords) ++ bad :: post)) yesno w
       = (Raise ArgumentError, w1)).
Proof.
  intros Hpre. pose proof (proj1 (set_bits_ok _ _ _ _ _) Hpre) as Hloop.
  split_and!.
  - by destruct (set_bits_loop_calls _ _ _ _ _ Hloop).
  - by destruct (set_bits_loop_sets _ _ _ _ _ Hloop).
  - intros Hbad. by apply set_bits_malformed.
  - intros row col Hbad Hconv. by eapply set_bits_unconvertible.
Qed.

(** *** Complement *)

Lemma all_bits_true rows cols p :
  (forall i j, p i j = true) -> Kure2.all_bits rows cols p = true.
Proof.
  intros H. unfold Kure2.all_bits.
  apply forallb_forall. intros i _. apply forallb_forall. intros j _. apply H.
Qed.

Lemma complement_on_live self w :
  live w self -> fresh_next (engine w) ->
  exists res w' kr,
    Kure2.rels (engine w) !! Relation.rel self = Some kr /\
    pyrel.complement self w = (Ok res, w') /\
    Kure2.rels (engine w') !! Relation.rel res =
      Some (Kure2.with_bits kr (fun i j => negb (Kure2.r_bit kr i j))) /\
    (forall p x, Kure2.rels (engine w) !! p = Some x ->
                 Kure2.rels (engine w') !! p = Some x) /\
    live w' res /\ fresh_next (engine w').
Proof.
  intros (ctx & kr & Hc & Hkc & Hkr & Hown & Hdim) [Hfr Hfc].
  assert (Relation.rel self <> Kure2.next (engine w)) as Hne.
  { intros E. rewrite E, Hfr in Hkr; [done|lia]. }
  eexists _, _, kr. split; [done|].
  unfold pyrel.complement. unfold mbind at 1, py_bind at 1.
  rewrite (new_on_live _ ctx _ _ w Hc Hkc Hdim).
  py_unfold. cbn [kure.exec Kure2.engine Kure2.exec Relation.rel engine].
  unfold Kure2.unary. cbn [Kure2.rels].
  rewrite lookup_insert_eq, lookup_insert_ne, Hkr by done.
  cbn [Kure2.r_context]. rewrite Hown, N.eqb_refl. cbn.
  unfold Kure2.put. cbn [Kure2.rels Kure2.next Kure2.contexts engine objects].
  split_and!.
  - done.
  - cbn. by rewrite lookup_insert_eq.
  - cbn. intros p x Hp.
    rewrite !lookup_insert_ne; [done| |]; intros <-; rewrite Hfr in Hp; done || lia.
  - eexists _, _. cbn. rewrite !lookup_insert_eq. split_and!; try done.
  - split; cbn; intros p Hp.
    + rewrite !lookup_insert_ne by lia. apply Hfr. lia.
    + apply Hfc. lia.
Qed.

(** C8: for a relation r whose context and handle are live,
    r.complement().complement() is returned and r.equals finds it equal to
    r: the engine reports success and the value true. *)
Theorem double_complement self w :
  live w self -> fresh_next (engine w) ->
  outcome (r1 ← pyrel.complement self;
           r2 ← pyrel.complement r1;
           pyrel.equals r2 (PyRel self)) w = Ok true.
Proof.
  intros Hlive Hfresh.
  destruct (complement_on_live self w Hlive Hfresh)
    as (r1 & w1 & kr & Hkr & Hrun1 & Hheld1 & Hframe1 & Hlive1 & Hfresh1).
  destruct (complement_on_live r1 w1 Hlive1 Hfresh1)
    as (r2 & w2 & kr1 & Hkr1 & Hrun2 & Hheld2 & Hframe2 & _ & _).
  rewrite Hheld1 in Hkr1. injection Hkr1 as <-.
  unfold outcome, mbind, py_bind. rewrite Hrun1, Hrun2.
  unfold pyrel.equals, pyrel._is_relation, pyrel.attr_rel.
  cbn [isinstance_Relation negb]. py_unfold.
  cbn [kure.exec Kure2.engine Kure2.exec]. unfold Kure2.compare.
  rewrite Hheld2, (Hframe2 _ _ (Hframe1 _ _ Hkr)).
  cbn [Kure2.with_bits Kure2.r_context Kure2.r_rows Kure2.r_cols Kure2.r_bit].
  unfold Kure2.same_dim. cbn [Kure2.r_rows Kure2.r_cols].
  rewrite N.eqb_refl, !Z.eqb_refl. cbn [andb].
  rewrite all_bits_true; [done|]. intros i j. by destruct (Kure2.r_bit kr i j).
Qed.

End Reference.

(** ** Errors detected locally and the state of the engine *)

Section LocalErrors.
Context {K : kure.Engine}.
Implicit Types (self : Relation.t) (w : world).

Lemma random_rejected_after_clear self prob w :
  positive_float prob = false ->
  after (pyrel.random self prob) w = after (pyrel.clear self) w.
Proof.
  intros Hp. unfold pyrel.random. rewrite after_bind. unfold after.
  destruct (pyrel.clear self w) as [[[]|e] w1]; [|done].
  destruct prob; try done. cbn in Hp. by rewrite Hp.
Qed.

(** C6 (as the code has it): InvalidDimension (new), TypeMismatch (every
    method that takes another relation) and the argument check of vector are
    raised with the world as it was: no call has been made, nothing the
    engine holds has changed.  random tests its argument after clear:
    whatever the argument, the relation has been through the engine's
    emptying call, and that is the one call made, when InvalidArgument is
    raised.  InvalidBitPair is raised by set_bits in the world the pairs
    before the malformed element have produced. *)
Theorem local_errors_and_engine_state self w :
  (forall c rows cols bits,
     pyrel.isValidDimension rows cols = false ->
     pyrel.new c rows cols bits w = (Raise InvalidDimension, w)) /\
  (forall o other,
     isinstance_Relation other = false ->
     binop_method o self other w = (Raise TypeMismatch, w)) /\
  (forall o other,
     isinstance_Relation other = false ->
     cmpop_method o self other w = (Raise TypeMismatch, w)) /\
  (forall v,
     type_is_int v = false ->
     pyrel.vector self v w = (Raise InvalidVectorArg, w)) /\
  (forall prob,
     positive_float prob = false ->
     calls (after (pyrel.random self prob) w) =
       calls w ++ [kure._empty (Relation.rel self)] /\
     engine (after (pyrel.random self prob) w) =
       (kure.exec (kure._empty (Relation.rel self)) (engine w)).2 /\
     (forall w1, pyrel.clear self w = (Ok tt, w1) ->
                 pyrel.random self prob w = (Raise InvalidArgument, w1))) /\
  (forall pre bad post yesno w1,
     pyrel.set_bits self (PyList pre) yesno w = (Ok tt, w1) ->
     unpacks_to_pair bad = false ->
     pyrel.set_bits self (PyList (pre ++ bad :: post)) yesno w
       = (Raise InvalidBitPair, w1)).
Proof.
  split_and!.
  - intros c rows cols bits. apply new_rejects.
  - intros o other. apply binop_rejects.
  - intros o other. apply cmpop_rejects.
  - intros v. apply vector_rejects.
  - intros prob Hp. rewrite (random_rejected_after_clear self prob w Hp).
    destruct (clear_calls self w) as [Hc He]. split_and!; [done|done|].
    intros w1. by apply random_rejects.
  - intros pre bad post yesno w1. apply set_bits_malformed.
Qed.

End LocalErrors.

(** ** Runs *)

Section Runs.
#[local] Existing Instance Kure2.engine.

(** C1 (the code on a 3x5 relation): the relation that transpose returns
    has rows 3 and cols 5, the attributes of the operand, where the claim
    has 5 and 3; the attributes were read when the result was minted, before
    the engine transposed into its handle, which now holds a 5x3 relation. *)
Theorem transpose_keeps_operand_dimensions :
  outcome transpose_3x5 fresh_world = Ok (3, 5, Some (5, 3)).
Proof. vm_compute. reflexivity. Qed.

(** C2 (the code on a 2x3 and a 3x4 relation): the relation that
    composition returns has rows 2 and cols 3, the attributes of the
    receiver, where the claim has 2 and 4; the handle holds the 2x4 product,
    with bit (0,3) set from bits (0,1) and (1,3). *)
Theorem composition_keeps_receiver_dimensions :
  outcome composition_2x3_3x4 fresh_world = Ok (2, 3, Some (2, 4), Some true).
Proof. vm_compute. reflexivity. Qed.

(** C3 fails for meet: with the operand in another context, the result
    relation is minted and the engine's intersection is called; the
    exception comes from the engine's last-error record. *)
Lemma meet_across_contexts_calls_engine :
  outcome two_contexts fresh_world = Ok (relation_1, relation_2) /\
  Relation.context relation_2 <> Relation.context relation_1 /\
  outcome (pyrel.meet relation_1 (PyRel relation_2)) world_two_contexts =
    Raise (EngineError "Relations belong to different contexts." 2) /\
  calls (after (pyrel.meet relation_1 (PyRel relation_2)) world_two_contexts) =
    calls world_two_contexts ++
      [kure._rel_new_with_size_si 1 1 1; kure._rel_get_rows_si 5;
       kure._rel_get_cols_si 5; kure._and 5 3 4].
Proof. split_and!; [by vm_compute|by vm_compute|by vm_compute|by vm_compute]. Qed.

(** The comparisons across two contexts, on the reference engine: the
    engine records the failure in the manager of its first argument, which
    for equals is the receiver's, so that equals raises the engine's error;
    for isSuperset it is the operand's, the receiver's manager has no
    record, and what is raised is ValueError. *)
Lemma comparisons_across_contexts :
  outcome (pyrel.equals relation_1 (PyRel relation_2)) world_two_contexts =
    Raise (EngineError "Relations belong to different contexts." 2) /\
  outcome (pyrel.isSuperset relation_1 (PyRel relation_2)) world_two_contexts =
    Raise ValueError.
Proof. split; by vm_compute. Qed.

(** C4 fails above the range of a C int: new(4294967297, 1) returns a
    relation whose rows attribute is 1. *)
Lemma mint_wraps_large_dimension :
  outcome (r ← mint_in_new_context 4294967297 1 PyNone;
           mret (Relation.rows r, Relation.cols r)) fresh_world = Ok (1, 1).
Proof. by vm_compute. Qed.

(** C5 fails at 2.0: it is outside (0.0, 1.0] and random returns
    normally. *)
Lemma random_accepts_2_0 :
  outcome (mint_in_new_context 1 1 (PyList [pair (0, 0)])) fresh_world
    = Ok relation_1x1 /\
  in_unit_interval (PyFloat float_2_0) = false /\
  outcome (pyrel.random relation_1x1 (PyFloat float_2_0)) world_1x1 = Ok tt.
Proof. split_and!; by vm_compute. Qed.

(** C6 fails for random: with probability 0.0 on a relation whose bit (0,0)
    is set, InvalidArgument is raised and the bit is no longer set. *)
Lemma random_clears_before_rejecting :
  outcome (mint_in_new_context 1 1 (PyList [pair (0, 0)])) fresh_world
    = Ok relation_1x1 /\
  bit_at (engine world_1x1) (Relation.rel relation_1x1) 0 0 = Some true /\
  outcome (pyrel.random relation_1x1 (PyFloat float_0_0)) world_1x1
    = Raise InvalidArgument /\
  bit_at (engine (after (pyrel.random relation_1x1 (PyFloat float_0_0)) world_1x1))
    (Relation.rel relation_1x1) 0 0 = Some false.
Proof. split_and!; by vm_compute. Qed.

(** C7 fails for a pair of strings: it is not a well-formed pair, and what
    set_bits raises is not InvalidBitPair but ArgumentError. *)
Lemma set_bits_lets_ArgumentError_through :
  outcome (mint_in_new_context 4 4 PyNone) fresh_world = Ok relation_4x4 /\
  well_formed_pair (PyTuple [PyStr "a"; PyStr "b"]) = false /\
  outcome (pyrel.set_bits relation_4x4
             (PyList [pair (1, 2); PyTuple [PyStr "a"; PyStr "b"]]) true)
    world_4x4 = Raise ArgumentError.
Proof. split_and!; by vm_compute. Qed.

End Runs.

(** ** Instances *)

Section Instances.
#[local] Existing Instance Kure2.engine.

(** A 1x1 relation compared with the integer 3. *)
Lemma eq_of_non_relation_at_int :
  pyrel.__eq__ relation_1x1 (PyInt 3) world_1x1 = (Ok false, world_1x1) /\
  pyrel.__ne__ relation_1x1 (PyInt 3) world_1x1 = (Ok true, world_1x1) /\
  pyrel.equals relation_1x1 (PyInt 3) world_1x1 = (Raise TypeMismatch, world_1x1).
Proof.
  apply (eq_of_non_relation relation_1x1 (PyInt 3) world_1x1). reflexivity.
Defined.

(** random(2.0) on a 1x1 relation: the fill is requested with 1.0. *)
Lemma random_argument_check_at_2_0 :
  pyrel.clear relation_1x1 world_1x1
    = (Ok tt, after (pyrel.clear relation_1x1) world_1x1) /\
  pyrel.random relation_1x1 (PyFloat float_2_0) world_1x1 =
    (Ok tt,
     after (call (kure._random_simple (Relation.rel relation_1x1) (c_float float_1_0)))
       (after (pyrel.clear relation_1x1) world_1x1)).
Proof.
  assert (pyrel.clear relation_1x1 world_1x1
          = (Ok tt, after (pyrel.clear relation_1x1) world_1x1)) as H.
  { vm_compute. reflexivity. }
  split; [exact H|].
  destruct (random_argument_check relation_1x1 (PyFloat float_2_0) world_1x1 _ H)
    as (_ & _ & Habove).
  apply (Habove float_2_0); reflexivity.
Defined.

(** equals and isSuperset between the relations of two contexts: one
    comparison call, and what isSuperset raises is what the last-error
    record of the receiver's manager gives, here none. *)
Lemma foreign_operand_reaches_engine_at_two_contexts :
  calls (after (pyrel.equals relation_1 (PyRel relation_2)) world_two_contexts) =
    calls world_two_contexts ++ [kure._equals 3 4] /\
  ValueError =
    last_error_exn 1
      (engine (after (pyrel.isSuperset relation_1 (PyRel relation_2)) world_two_contexts)).
Proof.
  assert (Relation.context relation_2 <> Relation.context relation_1) as Hne
    by (vm_compute; discriminate).
  assert (objects world_two_contexts !! Relation.context relation_1
          = Some (PyrelContext.Build 1 1 [(1, 3%N)])) as Hctx
    by (vm_compute; reflexivity).
  assert (cmpop_method IsSuperset relation_1 (PyRel relation_2) world_two_contexts =
            (Raise ValueError,
             after (pyrel.isSuperset relation_1 (PyRel relation_2)) world_two_contexts))
    as Hrun by (vm_compute; reflexivity).
  destruct (foreign_operand_reaches_engine relation_1 relation_2 world_two_contexts
              _ Hne Hctx eq_refl) as (_ & _ & _ & Hequals & _ & _ & _ & Hraised).
  split; [exact Hequals|].
  destruct (Hraised IsSuperset _ _ Hrun) as [He _]. exact He.
Defined.

(** Seven operations on a context just created. *)
Lemma reference_numbers_never_reused_at_some_ops :
  StronglySorted Z.lt (assigned_refs 0 some_ops world_new_context) /\
  StronglySorted Z.lt (handed_out_refs 0 some_ops world_new_context) /\
  NoDup (handed_out_refs 0 some_ops world_new_context).
Proof.
  assert (counter_covers 0 world_new_context) as Hcov
    by (vm_compute; constructor).
  destruct (reference_numbers_never_reused 0 some_ops world_new_context Hcov)
    as (_ & Hsorted & _ & Hhanded & Hnodup & _).
  split_and!; [exact Hsorted|exact Hhanded|exact Hnodup].
Defined.

(** new(3, 5) and new(-1, -1) in a context just created. *)
Lemma mint_round_trip_at_3x5 :
  (exists rel w',
     pyrel.new 0 (PyInt 3) (PyInt 5) PyNone world_new_context = (Ok rel, w') /\
     Relation.rows rel = 3 /\ Relation.cols rel = 5) /\
  pyrel.new 0 (PyInt (-1)) (PyInt (-1)) PyNone world_new_context
    = (Raise InvalidDimension, world_new_context).
Proof.
  assert (objects world_new_context !! 0%N = Some (PyrelContext.Build 1 0 [])) as Hctx
    by (vm_compute; reflexivity).
  assert (is_Some (Kure2.contexts (engine world_new_context) !! 1%N)) as Hlive
    by (eexists; vm_compute; reflexivity).
  destruct (mint_round_trip 0 _ world_new_context Hctx Hlive) as (Hmint & Hrefused & _).
  split.
  - apply Hmint. right. lia.
  - apply Hrefused. intros (r & k & Hr & Hk & H). injection Hr as <-. injection Hk as <-. lia.
Defined.

(** set_bits([(1,2),(2,)]) on a 4x4 relation, the scenario of the tests. *)
Lemma set_bits_in_order_without_rollback_at_4x4 :
  pyrel.set_bits relation_4x4 (PyList [pair (1, 2); PyTuple [PyInt 2]]) true world_4x4 =
    (Raise InvalidBitPair,
     after (pyrel.set_bits relation_4x4 (PyList [pair (1, 2)]) true) world_4x4).
Proof.
  assert (pyrel.set_bits relation_4x4 (PyList (pair <$> [(1, 2)])) true world_4x4 =
            (Ok tt, after (pyrel.set_bits relation_4x4 (PyList [pair (1, 2)]) true)
                      world_4x4)) as Hpre
    by (vm_compute; reflexivity).
  destruct (set_bits_in_order_without_rollback relation_4x4 [(1, 2)]
              (PyTuple [PyInt 2]) [] true world_4x4 _ Hpre) as (_ & _ & Hbad & _).
  apply Hbad. reflexivity.
Defined.

(** The 1x1 relation with its bit set. *)
Lemma double_complement_at_1x1 :
  outcome (r1 ← pyrel.complement relation_1x1;
           r2 ← pyrel.complement r1;
           pyrel.equals r2 (PyRel relation_1x1)) world_1x1 = Ok true.
Proof.
  assert (live world_1x1 relation_1x1) as Hlive.
  { exists (PyrelContext.Build 1 1 [(1, 2%N)]),
      (Kure2.Rel 1 1 1 (fun i j => if (i =? c_int 0) && (j =? c_int 0)
                                   then negb (kure.Kure_True =? 0)%N else false)).
    split_and!.
    - vm_compute. reflexivity.
    - eexists. vm_compute. reflexivity.
    - vm_compute. reflexivity.
    - reflexivity.
    - right. cbn. lia. }
  assert (fresh_next (engine world_1x1)) as Hfresh
    by (apply fresh_nextb_correct; vm_compute; reflexivity).
  exact (double_complement relation_1x1 world_1x1 Hlive Hfresh).
Defined.

(** new(0, 1), meet(3) and random(0.0) on the 1x1 relation. *)
Lemma local_errors_and_engine_state_at_1x1 :
  pyrel.new 0 (PyInt 0) (PyInt 1) PyNone world_1x1 = (Raise InvalidDimension, world_1x1) /\
  pyrel.meet relation_1x1 (PyInt 3) world_1x1 = (Raise TypeMismatch, world_1x1) /\
  calls (after (pyrel.random relation_1x1 (PyFloat float_0_0)) world_1x1) =
    calls world_1x1 ++ [kure._empty 2].
Proof.
  destruct (local_errors_and_engine_state relation_1x1 world_1x1)
    as (Hnew & Hbin & _ & _ & Hrandom & _).
  split_and!.
  - apply Hnew. reflexivity.
  - apply (Hbin Meet). reflexivity.
  - apply Hrandom. reflexivity.
Defined.

End Instances.

(** * Further properties of [pyrel.py] *)

(** ** The mapping of a context: lookup, deletion, teardown *)

Section MappingFacts.
Context {K : kure.Engine}.
Implicit Types (w : world) (d : list (Z * N)) (k : Z).

(** *** The dict *)

Lemma dict_get_set_ne k k' v d :
  k' <> k -> pyrel.dict_get k' (pyrel.dict_set k v d) = pyrel.dict_get k' d.
Proof.
  intros Hne. induction d as [|[k0 v0] d IH]; cbn.
  - by destruct (Z.eqb_spec k k').
  - destruct (Z.eqb_spec k0 k) as [->|Hne0]; cbn.
    + destruct (Z.eqb_spec k k'); [congruence|done].
    + by rewrite IH.
Qed.

Lemma dict_get_None k d : pyrel.dict_get k d = None <-> k ∉ pyrel.keys d.
Proof.
  unfold pyrel.keys. induction d as [|[k' v'] d IH]; cbn.
  - split; [intros _ ?%elem_of_nil|]; done.
  - rewrite not_elem_of_cons. destruct (Z.eqb_spec k' k) as [->|Hne].
    + split; [done|]. by intros [? _].
    + rewrite IH. split; [|by intros [_ ?]]. intros ?. split; [congruence|done].
Qed.

Lemma dict_get_del_eq k d :
  NoDup (pyrel.keys d) -> pyrel.dict_get k (pyrel.dict_del k d) = None.
Proof.
  unfold pyrel.keys. induction d as [|[k' v'] d IH]; cbn; [done|].
  intros [Hnin Hnd]%NoDup_cons.
  destruct (Z.eqb_spec k' k) as [->|Hne]; cbn.
  - by apply dict_get_None.
  - destruct (Z.eqb_spec k' k); [done|]. by apply IH.
Qed.

Lemma dict_get_del_ne k k' d :
  k' <> k -> pyrel.dict_get k' (pyrel.dict_del k d) = pyrel.dict_get k' d.
Proof.
  intros Hne. induction d as [|[k0 v0] d IH]; cbn; [done|].
  destruct (Z.eqb_spec k0 k) as [->|Hne0]; cbn.
  - destruct (Z.eqb_spec k k'); [congruence|done].
  - by rewrite IH.
Qed.

Lemma length_dict_del k d :
  is_Some (pyrel.dict_get k d) -> S (length (pyrel.dict_del k d)) = length d.
Proof.
  induction d as [|[k0 v0] d IH]; cbn; [by intros [? ?]|].
  destruct (Z.eqb_spec k0 k) as [->|Hne0]; cbn; [done|].
  intros H. by rewrite IH.
Qed.

(** *** delete *)

Lemma delete_skips c toDelete w ctx :
  objects w !! c = Some ctx ->
  pyrel.dict_get (ref_of toDelete) (PyrelContext.relations ctx) = None \/
  pyrel.dict_get (ref_of toDelete) (PyrelContext.relations ctx) = Some 0%N ->
  pyrel.delete c toDelete w = (Ok tt, w).
Proof.
  intros Hc Hk. unfold pyrel.delete. fold (ref_of toDelete).
  py_unfold. rewrite Hc. by destruct Hk as [-> | ->].
Qed.

Lemma delete_runs c toDelete w ctx rel :
  objects w !! c = Some ctx ->
  pyrel.dict_get (ref_of toDelete) (PyrelContext.relations ctx) = Some rel ->
  rel <> 0%N ->
  pyrel.delete c toDelete w =
    (Ok tt,
     World (kure.exec (kure._rel_destroy rel) (engine w)).2
       (calls w ++ [kure._rel_destroy rel])
       (<[c := PyrelContext.Build (PyrelContext._context ctx) (PyrelContext.ref ctx)
                 (pyrel.dict_del (ref_of toDelete) (PyrelContext.relations ctx))]>
          (objects w))
       (next_id w)).
Proof.
  intros Hc Hk Hnz. unfold pyrel.delete. fold (ref_of toDelete).
  py_unfold. rewrite Hc, Hk.
  destruct (N.eqb_spec rel 0) as [?|_]; [done|]. cbn [negb].
  destruct (kure.exec _ _) as [[] s]. cbn. by rewrite Hc.
Qed.

(** X1: delete of a number the context does not track (or tracks with a
    NULL handle) is a no-op: it returns, makes no engine call and leaves
    the world as it was. *)
Theorem delete_untracked_is_noop c toDelete w ctx :
  objects w !! c = Some ctx ->
  pyrel.dict_get (ref_of toDelete) (PyrelContext.relations ctx) = None \/
  pyrel.dict_get (ref_of toDelete) (PyrelContext.relations ctx) = Some 0%N ->
  pyrel.delete c toDelete w = (Ok tt, w).
Proof. apply delete_skips. Qed.

(** X2: delete of a tracked number makes one engine call, the destruction
    of the handle tracked under that number; afterwards the number is no
    longer tracked, every other number tracks the handle it tracked, and
    the counter has not moved. *)
Theorem delete_tracked c toDelete w ctx rel :
  objects w !! c = Some ctx ->
  NoDup (tracked c w) ->
  pyrel.dict_get (ref_of toDelete) (PyrelContext.relations ctx) = Some rel ->
  rel <> 0%N ->
  let w' := after (pyrel.delete c toDelete) w in
  outcome (pyrel.delete c toDelete) w = Ok tt /\
  calls w' = calls w ++ [kure._rel_destroy rel] /\
  counter c w' = counter c w /\
  handle_of c (ref_of toDelete) w' = None /\
  (forall k, k <> ref_of toDelete -> handle_of c k w' = handle_of c k w) /\
  S (length (tracked c w')) = length (tracked c w).
Proof.
  intros Hc Hnd Hk Hnz. cbn zeta. unfold outcome, after.
  rewrite (delete_runs c toDelete w ctx rel Hc Hk Hnz). cbn [fst snd calls].
  unfold counter, handle_of, tracked in *. cbn [objects].
  rewrite lookup_insert_eq, Hc in *. cbn. split_and!; try done.
  - by apply dict_get_del_eq.
  - intros k Hne. by apply dict_get_del_ne.
  - unfold pyrel.keys. rewrite !length_fmap. apply length_dict_del. by rewrite Hk.
Qed.

(** X3: deleting twice is deleting once: the second delete finds nothing
    under the number and does nothing. *)
Theorem delete_twice c toDelete w :
  NoDup (tracked c w) ->
  (pyrel.delete c toDelete;; pyrel.delete c toDelete) w = pyrel.delete c toDelete w.
Proof.
  intros Hnd. unfold mbind, py_bind.
  destruct (objects w !! c) as [ctx|] eqn:Hc.
  - destruct (pyrel.dict_get (ref_of toDelete) (PyrelContext.relations ctx))
      as [rel|] eqn:Hk.
    + destruct (N.eq_dec rel 0%N) as [->|Hnz].
      * rewrite (delete_skips c toDelete w ctx Hc) by auto.
        by apply (delete_skips c toDelete w ctx Hc); auto.
      * rewrite (delete_runs c toDelete w ctx rel Hc Hk Hnz).
        eapply delete_skips; [cbn; apply lookup_insert_eq|]. cbn. left.
        apply dict_get_del_eq. unfold tracked in Hnd. by rewrite Hc in Hnd.
    + rewrite (delete_skips c toDelete w ctx Hc) by auto.
      by apply (delete_skips c toDelete w ctx Hc); auto.
  - unfold pyrel.delete. py_unfold. by rewrite Hc.
Qed.

End MappingFacts.

(** ** clean and the finalizer of a context *)

Section Teardown.
Context {K : kure.Engine}.
Implicit Types (w : world) (d : list (Z * N)) (k : Z).

Lemma world_eta w : World (engine w) (calls w) (objects w) (next_id w) = w.
Proof. by destruct w. Qed.

Lemma clean_loop_runs c fuel w ctx :
  objects w !! c = Some ctx ->
  (length (PyrelContext.relations ctx) <= fuel)%nat ->
  pyrel.clean_loop fuel c w =
    (Ok tt,
     World (destroy_all (rev (snd <$> PyrelContext.relations ctx)) (engine w))
       (calls w ++ (kure._rel_destroy <$> rev (snd <$> PyrelContext.relations ctx)))
       (<[c := PyrelContext.Build (PyrelContext._context ctx) (PyrelContext.ref ctx) []]>
          (objects w))
       (next_id w)).
Proof.
  revert w ctx. induction fuel as [|fuel IH]; intros w ctx Hc Hlen.
  - destruct ctx as [kc ref [|kv d]]; cbn in Hlen; [|lia].
    cbn. py_unfold. rewrite Hc. cbn. rewrite app_nil_r, insert_id by done.
    by rewrite world_eta.
  - destruct (pyrel.dict_popitem (PyrelContext.relations ctx))
      as [[[k rel] rest]|] eqn:Hpop.
    + pose proof (dict_popitem_Some _ _ _ Hpop) as Hd.
      set (w2 := World (kure.exec (kure._rel_destroy rel) (engine w)).2
                   (calls w ++ [kure._rel_destroy rel])
                   (<[c := PyrelContext.Build (PyrelContext._context ctx)
                            (PyrelContext.ref ctx) rest]> (objects w))
                   (next_id w)).
      assert (pyrel.clean_loop (S fuel) c w = pyrel.clean_loop fuel c w2) as ->.
      { cbn [pyrel.clean_loop]. py_unfold. rewrite Hc, Hpop. cbn.
        subst w2. destruct (kure.exec _ _) as [[] s]. cbn.
        by destruct fuel. }
      rewrite (IH w2 (PyrelContext.Build (PyrelContext._context ctx)
                        (PyrelContext.ref ctx) rest)).
      * subst w2. cbn. rewrite Hd, fmap_app, rev_app_distr. cbn.
        by rewrite insert_insert_eq, <- app_assoc.
      * subst w2. cbn. apply lookup_insert_eq.
      * cbn. rewrite Hd, length_app in Hlen. cbn in Hlen. lia.
    + apply dict_popitem_None in Hpop as Hd.
      destruct ctx as [kc ref d]. cbn in Hd. subst d.
      cbn. py_unfold. rewrite Hc. cbn. rewrite app_nil_r, insert_id by done.
      by rewrite world_eta.
Qed.

Lemma clean_runs c w ctx :
  objects w !! c = Some ctx ->
  pyrel.clean c w =
    (Ok tt,
     World (destroy_all (rev (snd <$> PyrelContext.relations ctx)) (engine w))
       (calls w ++ (kure._rel_destroy <$> rev (snd <$> PyrelContext.relations ctx)))
       (<[c := PyrelContext.Build (PyrelContext._context ctx) (PyrelContext.ref ctx) []]>
          (objects w))
       (next_id w)).
Proof.
  intros Hc. unfold pyrel.clean. unfold mbind, py_bind, get_context. rewrite Hc.
  by apply clean_loop_runs.
Qed.

(** X4: clean returns normally and destroys every tracked handle exactly
    once, the one registered last first; afterwards the context tracks
    nothing and its counter has not moved. *)
Theorem clean_destroys_all_once c w ctx :
  objects w !! c = Some ctx ->
  let w' := after (pyrel.clean c) w in
  outcome (pyrel.clean c) w = Ok tt /\
  calls w' = calls w ++ (kure._rel_destroy <$> rev (handles c w)) /\
  engine w' = destroy_all (rev (handles c w)) (engine w) /\
  tracked c w' = [] /\
  counter c w' = counter c w.
Proof.
  intros Hc. cbn zeta. unfold outcome, after. rewrite (clean_runs c w ctx Hc).
  unfold handles, tracked, counter. cbn [fst snd calls engine objects].
  rewrite Hc, lookup_insert_eq. done.
Qed.

Lemma finalizer_runs c w ctx :
  objects w !! c = Some ctx ->
  pyrel.PyrelContext__del__ c w =
    (Ok tt,
     World
       (kure.exec (kure._context_destroy (PyrelContext._context ctx))
          (destroy_all (rev (snd <$> PyrelContext.relations ctx)) (engine w))).2
       ((calls w ++ (kure._rel_destroy <$> rev (snd <$> PyrelContext.relations ctx)))
          ++ [kure._context_destroy (PyrelContext._context ctx)])
       (<[c := PyrelContext.Build 0 (PyrelContext.ref ctx) []]> (objects w))
       (next_id w)).
Proof.
  intros Hc. unfold pyrel.PyrelContext__del__.
  unfold mbind at 1, py_bind at 1. rewrite (clean_runs c w ctx Hc).
  py_unfold. cbn [fst snd calls engine objects next_id]. rewrite lookup_insert_eq.
  cbn [PyrelContext._context PyrelContext.ref PyrelContext.relations].
  destruct (kure.exec _ _) as [[] s]. cbn [fst snd calls engine objects next_id].
  by rewrite insert_insert_eq.
Qed.

(** X5: the finalizer of a context destroys every tracked handle, and only
    then releases the manager: the release is the last call, after it the
    context tracks nothing and holds a NULL manager. *)
Theorem context_finalizer_releases_last c w ctx :
  objects w !! c = Some ctx ->
  let w' := after (pyrel.PyrelContext__del__ c) w in
  outcome (pyrel.PyrelContext__del__ c) w = Ok tt /\
  calls w' = calls w ++ (kure._rel_destroy <$> rev (handles c w))
               ++ [kure._context_destroy (PyrelContext._context ctx)] /\
  objects w' !! c = Some (PyrelContext.Build 0 (PyrelContext.ref ctx) []).
Proof.
  intros Hc. cbn zeta. unfold outcome, after. rewrite (finalizer_runs c w ctx Hc).
  cbn [fst snd calls objects]. unfold handles.
  rewrite Hc, lookup_insert_eq, <- app_assoc. done.
Qed.

End Teardown.

(** ** Registration of new relations *)

Section Registration.
Context {K : kure.Engine}.
Implicit Types (self : Relation.t) (w : world) (k : Z).

(** X6: the relation that new returns carries the number the counter has
    just reached, one more than before, and the context tracks the handle
    of the relation under that number; what the other numbers track has
    not changed. *)
Theorem new_registers_its_result c rows cols bits w ctx rel w' :
  objects w !! c = Some ctx ->
  pyrel.new c rows cols bits w = (Ok rel, w') ->
  Relation.context rel = c /\
  Relation.ref rel = PyrelContext.ref ctx + 1 /\
  counter c w' = Relation.ref rel /\
  handle_of c (Relation.ref rel) w' = Some (Relation.rel rel) /\
  (forall k, k <> Relation.ref rel -> handle_of c k w' = handle_of c k w).
Proof.
  intros Hc Hrun.
  destruct (pyrel.isValidDimension rows cols) eqn:Hdim.
  - destruct (new_registered c rows cols bits w ctx Hc Hdim) as [Hobj Hout].
    unfold after, outcome in *. rewrite Hrun in *. cbn in Hobj.
    destruct (Hout rel eq_refl) as (Hcx & Href & Hrel).
    unfold counter, handle_of. rewrite Hobj, lookup_insert_eq. cbn.
    rewrite Href, Hrel. split_and!; try done.
    + apply dict_get_set_eq.
    + intros k Hne. rewrite Hc. cbn. by apply dict_get_set_ne.
  - by rewrite new_rejects in Hrun.
Qed.

(** X7: once the dimension check of new has passed, the relation is
    created and registered before the bits are looked at: whatever new then
    returns or raises, the counter has advanced and the context tracks the
    handle the engine returned.  In particular a bits argument that is
    true but not iterable makes new raise InvalidBitPair and leaves that
    relation registered. *)
Theorem new_registers_before_bits c rows cols bits w ctx :
  objects w !! c = Some ctx ->
  pyrel.isValidDimension rows cols = true ->
  let w' := after (pyrel.new c rows cols bits) w in
  counter c w' = PyrelContext.ref ctx + 1 /\
  handle_of c (PyrelContext.ref ctx + 1) w' =
    Some (returned (create_call ctx rows cols) w) /\
  (truthy bits = true -> py_iter bits = None ->
   outcome (pyrel.new c rows cols bits) w = Raise InvalidBitPair).
Proof.
  intros Hc Hdim. cbn zeta.
  destruct (new_registered c rows cols bits w ctx Hc Hdim) as [Hobj _].
  unfold counter, handle_of. rewrite Hobj, lookup_insert_eq. cbn.
  split_and!; [done|apply dict_get_set_eq|].
  intros Ht Hi. unfold outcome, pyrel.new, pyrel.Relation__init__, pyrel.set_bits.
  rewrite Hdim, Ht, Hi. cbn [negb]. py_unfold. rewrite Hc. py_run. done.
Qed.

(** X8: _add returns the number the counter has just reached and tracks the
    handle under it, without a call into the engine; what the other numbers
    track has not changed. *)
Theorem _add_registers c rel w ctx :
  objects w !! c = Some ctx ->
  let w' := after (pyrel._add c rel) w in
  outcome (pyrel._add c rel) w = Ok (PyrelContext.ref ctx + 1) /\
  calls w' = calls w /\ engine w' = engine w /\
  counter c w' = PyrelContext.ref ctx + 1 /\
  handle_of c (PyrelContext.ref ctx + 1) w' = Some rel /\
  (forall k, k <> PyrelContext.ref ctx + 1 -> handle_of c k w' = handle_of c k w).
Proof.
  intros Hc. cbn zeta. unfold outcome, after, pyrel._add. py_unfold. rewrite Hc.
  cbn [fst snd calls engine objects]. unfold counter, handle_of. cbn [objects].
  rewrite lookup_insert_eq. cbn. split_and!; try done.
  - apply dict_get_set_eq.
  - intros k Hne. rewrite Hc. cbn. by apply dict_get_set_ne.
Qed.

(** X9: when every tracked number is at most the counter, the number that
    new (its check passed) or _add registers is new to the mapping and goes
    last: the mapping lists relations in the order they were created. *)
Theorem registration_appends c w ctx :
  objects w !! c = Some ctx ->
  counter_covers c w ->
  (forall rel, tracked c (after (pyrel._add c rel) w)
               = tracked c w ++ [PyrelContext.ref ctx + 1]) /\
  (forall rows cols bits,
     pyrel.isValidDimension rows cols = true ->
     tracked c (after (pyrel.new c rows cols bits) w)
       = tracked c w ++ [PyrelContext.ref ctx + 1]).
Proof.
  intros Hc Hcov.
  assert (PyrelContext.ref ctx + 1 ∉ pyrel.keys (PyrelContext.relations ctx)) as Hnew.
  { unfold counter_covers, counter, tracked in Hcov. rewrite Hc in Hcov.
    rewrite Forall_forall in Hcov. intros Hin. specialize (Hcov _ Hin). lia. }
  split.
  - intros rel. unfold after, pyrel._add. py_unfold. rewrite Hc. cbn.
    unfold tracked. cbn. rewrite lookup_insert_eq, Hc. cbn.
    rewrite keys_dict_set. by rewrite decide_False.
  - intros rows cols bits Hdim.
    destruct (new_registered c rows cols bits w ctx Hc Hdim) as [Hobj _].
    unfold tracked. rewrite Hobj, lookup_insert_eq, Hc. cbn.
    rewrite keys_dict_set. by rewrite decide_False.
Qed.

End Registration.

(** ** Methods that return a new relation *)

Section Producing.
Context {K : kure.Engine}.
Implicit Types (self : Relation.t) (w : world) (k : Z).

Lemma _kure_error_no_result {A} self w (a : A) :
  outcome (pyrel._kure_error self) w <> Ok a.
Proof.
  unfold outcome. by destruct (_kure_error_raises (A := A) self w) as [e ->].
Qed.

(** The result of a producing method, when there is one, is the object
    [new] returned; and the context objects are as [new] left them. *)
Lemma unop_as_minted o self w :
  objects (after (unop_method o self) w) =
    objects (after (pyrel.new (Relation.context self) (PyInt (Relation.rows self))
                      (PyInt (Relation.cols self)) PyNone) w) /\
  (forall res, outcome (unop_method o self) w = Ok res ->
     outcome (pyrel.new (Relation.context self) (PyInt (Relation.rows self))
                (PyInt (Relation.cols self)) PyNone) w = Ok res).
Proof.
  split.
  - destruct o; cbn [unop_method];
      unfold pyrel.empty, pyrel.universal, pyrel.identity, pyrel.transpose,
        pyrel.complement;
      apply objects_after_bind; intros a; repeat frame_step.
  - intros res.
    destruct o; cbn [unop_method];
      unfold pyrel.empty, pyrel.universal, pyrel.identity, pyrel.transpose,
        pyrel.complement;
      intros (a & Ha & Hf)%outcome_bind_Ok; rewrite Ha; f_equal;
      apply outcome_bind_Ok in Hf as (ok & _ & Hf);
      (destruct (pyrel.bool_ord ok);
       [by injection Hf|by apply _kure_error_no_result in Hf]).
Qed.

Lemma binop_as_minted o self other w :
  objects (after (binop_method o self (PyRel other)) w) =
    objects (after (pyrel.new (Relation.context self) (PyInt (Relation.rows self))
                      (PyInt (Relation.cols self)) PyNone) w) /\
  (forall res, outcome (binop_method o self (PyRel other)) w = Ok res ->
     outcome (pyrel.new (Relation.context self) (PyInt (Relation.rows self))
                (PyInt (Relation.cols self)) PyNone) w = Ok res).
Proof.
  assert (forall m : py Relation.t,
            after (pyrel._is_relation self (PyRel other);; m) w = after m w)
    as Hafter by done.
  assert (forall m : py Relation.t,
            outcome (pyrel._is_relation self (PyRel other);; m) w = outcome m w)
    as Hout by done.
  split.
  - destruct o; cbn [binop_method];
      unfold pyrel.meet, pyrel.join, pyrel.composition;
      rewrite Hafter;
      apply objects_after_bind; intros a; unfold pyrel.attr_rel; repeat frame_step.
  - intros res.
    destruct o; cbn [binop_method];
      unfold pyrel.meet, pyrel.join, pyrel.composition;
      rewrite Hout;
      intros (a & Ha & Hf)%outcome_bind_Ok; rewrite Ha; f_equal;
      apply outcome_bind_Ok in Hf as (orel & _ & Hf);
      apply outcome_bind_Ok in Hf as (ok & _ & Hf);
      (destruct (pyrel.bool_ord ok);
       [by injection Hf|by apply _kure_error_no_result in Hf]).
Qed.

(** X10: every method that returns a new relation (empty, universal,
    identity, transpose, complement, meet, join, composition) registers the
    relation it mints before the engine operates on it: whether the engine
    operation then succeeds or fails, the counter of the receiver's context
    has advanced by one and the context tracks the minted handle; a result
    that is returned is that registered relation. *)
Theorem result_registered_whatever_engine_says self w ctx :
  objects w !! Relation.context self = Some ctx ->
  pyrel.isValidDimension (PyInt (Relation.rows self)) (PyInt (Relation.cols self)) = true ->
  let c := Relation.context self in
  let p := returned (create_call ctx (PyInt (Relation.rows self))
                       (PyInt (Relation.cols self))) w in
  let registered (w' : world) (out : result Relation.t) :=
    counter c w' = PyrelContext.ref ctx + 1 /\
    handle_of c (PyrelContext.ref ctx + 1) w' = Some p /\
    (forall res, out = Ok res ->
       Relation.context res = c /\ Relation.ref res = PyrelContext.ref ctx + 1 /\
       Relation.rel res = p) in
  (forall o, registered (after (unop_method o self) w) (outcome (unop_method o self) w)) /\
  (forall o other,
     registered (after (binop_method o self (PyRel other)) w)
       (outcome (binop_method o self (PyRel other)) w)).
Proof.
  intros Hc Hdim. cbn zeta.
  destruct (new_registered _ _ _ PyNone w ctx Hc Hdim) as [Hobj Hout].
  split.
  - intros o. destruct (unop_as_minted o self w) as [Ho Hr].
    unfold counter, handle_of. rewrite Ho, Hobj, lookup_insert_eq. cbn.
    split_and!; [done|apply dict_get_set_eq|]. intros res Hres. by apply Hout, Hr.
  - intros o other. destruct (binop_as_minted o self other w) as [Ho Hr].
    unfold counter, handle_of. rewrite Ho, Hobj, lookup_insert_eq. cbn.
    split_and!; [done|apply dict_get_set_eq|]. intros res Hres. by apply Hout, Hr.
Qed.

(** X11: copy asks the engine for a duplicate of the handle.  When the
    engine returns one, copy registers it under the next number of the
    receiver's context and returns a relation with that number and that
    handle, having made three calls (duplicate, rows, cols).  When the
    engine returns NULL, copy raises after that single call and registers
    nothing. *)
Theorem copy_registers_duplicate self w ctx :
  objects w !! Relation.context self = Some ctx ->
  let c := Relation.context self in
  let p := returned (kure._rel_new_copy (Relation.rel self)) w in
  let w' := after (pyrel.copy self) w in
  (p <> 0%N ->
   exists res,
     outcome (pyrel.copy self) w = Ok res /\
     Relation.context res = c /\ Relation.ref res = PyrelContext.ref ctx + 1 /\
     Relation.rel res = p /\
     handle_of c (PyrelContext.ref ctx + 1) w' = Some p /\
     calls w' = calls w ++ [kure._rel_new_copy (Relation.rel self);
                            kure._rel_get_rows_si p; kure._rel_get_cols_si p]) /\
  (p = 0%N ->
   exists e, pyrel.copy self w = (Raise e, called (kure._rel_new_copy (Relation.rel self)) w)).
Proof.
  intros Hc. cbn zeta. unfold returned, called, outcome, after.
  unfold pyrel.copy, pyrel._add, pyrel.Relation__init__. py_unfold.
  destruct (kure.exec (kure._rel_new_copy _) _) as [p s] eqn:E. cbn [fst snd].
  split.
  - intros Hp. destruct (N.eqb_spec p 0) as [?|_]; [done|]. cbn [negb].
    py_run. eexists. split; [done|]. unfold handle_of. cbn.
    rewrite lookup_insert_eq. cbn. split_and!; try done.
    + apply dict_get_set_eq.
    + by rewrite <- !app_assoc.
  - intros ->. cbn.
    by kure_error_case @_kure_error_raises; eexists.
Qed.

End Producing.

(** ** Contexts do not interfere *)

Section Isolation.
Context {K : kure.Engine}.
Implicit Types (self : Relation.t) (w : world) (c : N).

Lemma only_touches_keeps {A} c (m : py A) : keeps_objects m -> only_touches c m.
Proof. intros Hk w c' _. by rewrite Hk. Qed.

Lemma only_touches_set c x : only_touches c (set_context c x).
Proof. intros w c' Hne. unfold after, set_context. cbn. by apply lookup_insert_ne. Qed.

Lemma only_touches_bind {A B} c (m : py A) (f : A -> py B) :
  only_touches c m -> (forall a, only_touches c (f a)) -> only_touches c (m ≫= f).
Proof.
  intros Hm Hf w c' Hne. specialize (Hm w c' Hne). rewrite after_bind.
  unfold after in *. destruct (m w) as [[a|e] w1]; cbn in *; [|done].
  by rewrite <- Hm, <- (Hf a w1 c' Hne).
Qed.

Lemma keeps_get_context c : keeps_objects (get_context c).
Proof. intros w. unfold after, get_context. by destruct (objects w !! c). Qed.

Ltac touch_step :=
  lazymatch goal with
  | |- only_touches _ (?m ≫= ?f) => apply (only_touches_bind _ m f); [|intros ?]
  | |- only_touches ?c (set_context ?c _) => apply only_touches_set
  | |- only_touches _ (get_context _) => apply only_touches_keeps, keeps_get_context
  | |- only_touches _ (if ?b then _ else _) => destruct b
  | |- only_touches _ _ =>
      first [assumption | apply only_touches_keeps; repeat frame_step]
  end.

Lemma only_touches_new c rows cols bits : only_touches c (pyrel.new c rows cols bits).
Proof. unfold pyrel.new. repeat touch_step. Qed.

Lemma only_touches__add c rel : only_touches c (pyrel._add c rel).
Proof. unfold pyrel._add. repeat touch_step. Qed.

Lemma only_touches_delete c toDelete : only_touches c (pyrel.delete c toDelete).
Proof.
  unfold pyrel.delete. touch_step; [touch_step|].
  destruct (pyrel.dict_get _ _); repeat touch_step.
Qed.

Lemma only_touches_clean_loop c fuel : only_touches c (pyrel.clean_loop fuel c).
Proof.
  induction fuel as [|fuel IH]; cbn [pyrel.clean_loop];
    (touch_step; [touch_step|]);
    (destruct (pyrel.dict_popitem _) as [[[k rel] rest]|]; [|touch_step]);
    repeat touch_step.
Qed.

Lemma only_touches_clean c : only_touches c (pyrel.clean c).
Proof. unfold pyrel.clean. touch_step; [touch_step|apply only_touches_clean_loop]. Qed.

Ltac touch :=
  repeat lazymatch goal with
    | |- only_touches ?c (pyrel.new ?c _ _ _) => apply only_touches_new
    | |- only_touches ?c (pyrel._add ?c _) => apply only_touches__add
    | |- only_touches ?c (pyrel.delete ?c _) => apply only_touches_delete
    | |- only_touches ?c (pyrel.clean ?c) => apply only_touches_clean
    | |- _ => touch_step
    end.

(** X12: the operations of a context (new, _add, delete, clean and the
    finalizer) change the counter and the mapping of that context only:
    every other context object is as it was. *)
Theorem context_operations_are_local c c' w :
  c' <> c ->
  (forall op, objects (after (ctx_step c op) w) !! c' = objects w !! c') /\
  objects (after (pyrel.PyrelContext__del__ c) w) !! c' = objects w !! c'.
Proof.
  intros Hne. split.
  - intros op. revert w c' Hne. change (only_touches c (ctx_step c op)).
    destruct op; cbn [ctx_step]; touch.
  - revert w c' Hne. change (only_touches c (pyrel.PyrelContext__del__ c)).
    unfold pyrel.PyrelContext__del__. touch.
Qed.

(** X13: a method of a relation changes at most the context the relation
    belongs to (copy and the methods that return a new relation register
    their result there), and the methods that return none (set_bit,
    set_bits, clear, random, is_empty, vector, vector_next and the
    comparisons) change no context object at all. *)
Theorem relation_methods_are_local self :
  (only_touches (Relation.context self) (pyrel.copy self) /\
   (forall o, only_touches (Relation.context self) (unop_method o self)) /\
   (forall o other, only_touches (Relation.context self) (binop_method o self other)) /\
   only_touches (Relation.context self) (pyrel.Relation__del__ self)) /\
  ((forall row col yesno, keeps_objects (pyrel.set_bit self row col yesno)) /\
   (forall bits yesno, keeps_objects (pyrel.set_bits self bits yesno)) /\
   keeps_objects (pyrel.clear self) /\
   (forall prob, keeps_objects (pyrel.random self prob)) /\
   keeps_objects (pyrel.is_empty self) /\
   (forall v, keeps_objects (pyrel.vector self v)) /\
   (forall n, keeps_objects (pyrel.vector_next self n)) /\
   (forall o other, keeps_objects (cmpop_method o self other))).
Proof.
  assert (keeps_objects (pyrel.clear self)) as Hclear.
  { unfold pyrel.clear. repeat frame_step. }
  assert (forall n, keeps_objects (pyrel.vector_next_loop self n)) as Hloop.
  { induction n as [|n IH]; cbn [pyrel.vector_next_loop]; repeat frame_step.
    apply IH. }
  assert (forall other, keeps_objects (pyrel.equals self other)) as Heq.
  { intros other. unfold pyrel.equals, pyrel._is_relation, pyrel.attr_rel.
    destruct other; cbn [isinstance_Relation negb]; repeat frame_step. }
  assert (forall other, keeps_objects (pyrel.isSuperset self other)) as Hsup.
  { intros other. unfold pyrel.isSuperset, pyrel._is_relation, pyrel.attr_rel.
    destruct other; cbn [isinstance_Relation negb]; repeat frame_step. }
  assert (forall other, keeps_objects (pyrel.isSubset self other)) as Hsub.
  { intros other. unfold pyrel.isSubset, pyrel._is_relation, pyrel.attr_rel.
    destruct other; cbn [isinstance_Relation negb]; repeat frame_step. }
  split; split_and!.
  - unfold pyrel.copy. touch.
  - intros o. destruct o; cbn [unop_method];
      unfold pyrel.empty, pyrel.universal, pyrel.identity, pyrel.transpose,
        pyrel.complement; touch.
  - intros o other. destruct o; cbn [binop_method];
      unfold pyrel.meet, pyrel.join, pyrel.composition, pyrel._is_relation,
        pyrel.attr_rel;
      destruct other; cbn [isinstance_Relation negb]; touch.
  - apply only_touches_delete.
  - intros row col yesno. apply keeps_set_bit.
  - intros bits yesno. apply keeps_set_bits.
  - exact Hclear.
  - intros prob. unfold pyrel.random. frame_step; [exact Hclear|].
    destruct prob; repeat frame_step.
  - unfold pyrel.is_empty. repeat frame_step.
  - intros v. unfold pyrel.vector, pyrel.vector_next. repeat frame_step. apply Hloop.
  - intros n. apply Hloop.
  - intros o other. destruct o; cbn [cmpop_method];
      unfold pyrel.notEquals, pyrel.isStrictSuperset, pyrel.isStrictSubset,
        pyrel._is_relation;
      try done; repeat frame_step; done.
Qed.

End Isolation.

(** ** Bits and vectors *)

Section BitsAndVectors.
Context {K : kure.Engine}.
Implicit Types (self : Relation.t) (w : world).

(** X14: set_bits on a list is set_bits on a first part followed, when
    that returns, by set_bits on the rest: the same engine calls, the same
    outcome, the same exception at the same point. *)
Theorem set_bits_concatenation self l1 l2 yesno w :
  pyrel.set_bits self (PyList (l1 ++ l2)) yesno w =
    (pyrel.set_bits self (PyList l1) yesno;; pyrel.set_bits self (PyList l2) yesno) w.
Proof.
  unfold pyrel.set_bits, try_except, mbind, py_bind. cbn [py_iter].
  rewrite set_bits_loop_app.
  destruct (pyrel.set_bits_loop self l1 yesno w) as [[[]|e] w1]; [done|].
  by destruct (pyrel.handles_TypeError_ValueError e).
Qed.

Lemma c_int_wraps z n : c_int (z + n * 2 ^ 32) = c_int z.
Proof.
  unfold c_int. replace (z + n * 2 ^ 32 + 2 ^ 31) with (z + 2 ^ 31 + n * 2 ^ 32) by lia.
  by rewrite Z.mod_add.
Qed.

Lemma c_int_range z : - 2 ^ 31 <= c_int z < 2 ^ 31.
Proof.
  unfold c_int. pose proof (Z.mod_pos_bound (z + 2 ^ 31) (2 ^ 32)). lia.
Qed.

(** X15: set_bit hands the engine its coordinates as C ints: what reaches
    the engine lies in the 32-bit range, and coordinates that differ by a
    multiple of 2^32 are the same coordinates, with the same engine call
    and the same outcome. *)
Theorem set_bit_coordinates_wrap self r c n m yesno w :
  pyrel.set_bit self (PyInt (r + n * 2 ^ 32)) (PyInt (c + m * 2 ^ 32)) yesno w =
    pyrel.set_bit self (PyInt r) (PyInt c) yesno w /\
  exists r' c',
    (- 2 ^ 31 <= r' < 2 ^ 31) /\ (- 2 ^ 31 <= c' < 2 ^ 31) /\
    calls (after (pyrel.set_bit self (PyInt r) (PyInt c) yesno) w) =
      calls w ++ [kure._set_bit_si (Relation.rel self)
                    (if yesno then kure.Kure_True else kure.Kure_False) r' c'].
Proof.
  split.
  - unfold pyrel.set_bit. cbn [as_c_int]. by rewrite !c_int_wraps.
  - exists (c_int r), (c_int c). split_and!; try apply c_int_range.
    unfold after, pyrel.set_bit. cbn [as_c_int]. py_unfold. py_run.
    destruct (negb _); [kure_error_case @_kure_error_raises|]; done.
Qed.


(** *** vector_next *)

Lemma vector_next_loop_app self a b w :
  pyrel.vector_next_loop self (a + b) w =
    (pyrel.vector_next_loop self a;; pyrel.vector_next_loop self b) w.
Proof.
  revert w. induction a as [|a IH]; intros w; [done|].
  cbn [Nat.add pyrel.vector_next_loop]. py_unfold.
  destruct (kure.exec _ _) as [ok s].
  destruct (negb _).
  - by kure_error_case @_kure_error_raises.
  - apply IH.
Qed.

Lemma vector_next_loop_calls self n w w' :
  pyrel.vector_next_loop self n w = (Ok tt, w') ->
  calls w' = calls w ++ replicate n (kure._vec_next (Relation.rel self) (Relation.rel self)).
Proof.
  revert w. induction n as [|n IH]; intros w.
  - cbn. intros [= <-]. by rewrite app_nil_r.
  - cbn [pyrel.vector_next_loop replicate]. py_unfold.
    destruct (kure.exec _ _) as [ok s].
    destruct (negb _).
    + by kure_error_case @_kure_error_raises.
    + intros ->%IH. cbn. by rewrite <- app_assoc.
Qed.

(** X17: vector_next with an increment that is zero or negative returns
    without a call; when vector_next returns, it has asked the engine for
    the next vector exactly increment times, each time in place on the
    handle of the relation. *)
Theorem vector_next_call_count self n w :
  (n <= 0 -> pyrel.vector_next self n w = (Ok tt, w)) /\
  (forall w', pyrel.vector_next self n w = (Ok tt, w') ->
     calls w' = calls w ++
       replicate (Z.to_nat n) (kure._vec_next (Relation.rel self) (Relation.rel self))).
Proof.
  unfold pyrel.vector_next. split.
  - intros Hn. by replace (Z.to_nat n) with 0%nat by lia.
  - intros w'. apply vector_next_loop_calls.
Qed.

(** X18: advancing by a + b is advancing by a and then, if that returned,
    by b (for increments that are not negative). *)
Theorem vector_next_additive self a b w :
  0 <= a -> 0 <= b ->
  pyrel.vector_next self (a + b) w =
    (pyrel.vector_next self a;; pyrel.vector_next self b) w.
Proof.
  intros Ha Hb. unfold pyrel.vector_next. rewrite Z2Nat.inj_add by done.
  apply vector_next_loop_app.
Qed.

End BitsAndVectors.

(** ** Comparisons *)

Section Comparisons.
Context {K : kure.Engine}.
Implicit Types (self other : Relation.t) (w : world).

(** X19: equals, isSubset and isSuperset return a boolean exactly when the
    engine has written a non-zero success byte, and the boolean is then
    the engine's result; with a zero success byte they raise, whatever the
    result byte is: no answer is made up. *)
Theorem comparison_answers_only_on_success self other w b :
  (outcome (pyrel.equals self (PyRel other)) w = Ok b <->
   let r := returned (kure._equals (Relation.rel self) (Relation.rel other)) w in
   pyrel.bool_ord r.2 = true /\ b = pyrel.bool_ord r.1) /\
  (outcome (pyrel.isSubset self (PyRel other)) w = Ok b <->
   let r := returned (kure._includes (Relation.rel self) (Relation.rel other)) w in
   pyrel.bool_ord r.2 = true /\ b = pyrel.bool_ord r.1) /\
  (outcome (pyrel.isSuperset self (PyRel other)) w = Ok b <->
   let r := returned (kure._includes (Relation.rel other) (Relation.rel self)) w in
   pyrel.bool_ord r.2 = true /\ b = pyrel.bool_ord r.1).
Proof.
  unfold outcome. rewrite equals_runs, isSubset_runs, isSuperset_runs. cbn zeta.
  split_and!;
    (match goal with |- context [if ?c then _ else _] => destruct c end;
     [cbn; split; [by intros [= <-]|by intros [_ ->]]|]);
    (split; [|by intros [? _]]);
    kure_error_case @_kure_error_raises; done.
Qed.

(** X20: a.isSuperset(b) is b.isSubset(a) for relations of one context:
    the same engine call, inclusion of b's handle in a's, and the same
    outcome. *)
Theorem isSuperset_is_isSubset_swapped self other w :
  Relation.context other = Relation.context self ->
  pyrel.isSuperset self (PyRel other) w = pyrel.isSubset other (PyRel self) w.
Proof.
  intros Hctx. rewrite isSuperset_runs, isSubset_runs. cbn zeta.
  match goal with |- context [if ?c then _ else _] => destruct c end; [done|].
  unfold pyrel._kure_error. by rewrite Hctx.
Qed.

(** X21: the strict comparisons ask the engine for the inclusion first and
    for the equality only when the inclusion holds: when the inclusion is
    answered false the result is False after that one call; when it is
    answered true the result is the negation of equals. *)
Theorem strict_comparisons_short_circuit self other w :
  let sub := kure._includes (Relation.rel self) (Relation.rel other) in
  let sup := kure._includes (Relation.rel other) (Relation.rel self) in
  (pyrel.bool_ord (returned sub w).2 = true ->
   pyrel.isStrictSubset self (PyRel other) w =
     if pyrel.bool_ord (returned sub w).1
     then pyrel.notEquals self (PyRel other) (called sub w)
     else (Ok false, called sub w)) /\
  (pyrel.bool_ord (returned sup w).2 = true ->
   pyrel.isStrictSuperset self (PyRel other) w =
     if pyrel.bool_ord (returned sup w).1
     then pyrel.notEquals self (PyRel other) (called sup w)
     else (Ok false, called sup w)).
Proof.
  cbn zeta. split; intros Hok.
  - unfold pyrel.isStrictSubset. unfold mbind at 1, py_bind at 1.
    change (pyrel._is_relation self (PyRel other) w) with (@Ok bool true, w).
    cbv beta iota. unfold mbind at 1, py_bind at 1.
    rewrite isSubset_runs. cbn zeta. rewrite Hok.
    by match goal with |- context [if ?c then _ else _] => destruct c end.
  - unfold pyrel.isStrictSuperset. unfold mbind at 1, py_bind at 1.
    change (pyrel._is_relation self (PyRel other) w) with (@Ok bool true, w).
    cbv beta iota. unfold mbind at 1, py_bind at 1.
    rewrite isSuperset_runs. cbn zeta. rewrite Hok.
    by match goal with |- context [if ?c then _ else _] => destruct c end.
Qed.

End Comparisons.

(** ** The mapping stays a dict below the counter *)

Section MappingInvariant.
Context {K : kure.Engine}.
Implicit Types (w : world) (d : list (Z * N)) (k : Z).

Lemma NoDup_keys_dict_del k d :
  NoDup (pyrel.keys d) -> NoDup (pyrel.keys (pyrel.dict_del k d)).
Proof.
  induction d as [|[k' v'] d IH]; cbn; [done|].
  unfold pyrel.keys in *. cbn. intros [Hnin Hnd]%NoDup_cons.
  destruct (k' =? k); cbn; [done|].
  apply NoDup_cons. split; [|by apply IH].
  intros Hin. by apply Hnin, (keys_dict_del k).
Qed.

Lemma NoDup_keys_dict_set k v d :
  NoDup (pyrel.keys d) -> NoDup (pyrel.keys (pyrel.dict_set k v d)).
Proof.
  intros Hnd. rewrite keys_dict_set. destruct (decide _); [done|].
  apply NoDup_app. split_and!; [done| |apply NoDup_singleton].
  intros x Hx ->%list_elem_of_singleton. done.
Qed.

Lemma ctx_step_absent c op w :
  objects w !! c = None -> after (ctx_step c op) w = w.
Proof.
  intros Hc. destruct op; cbn [ctx_step];
    unfold after, pyrel.new, pyrel._add, pyrel.delete, pyrel.clean;
    py_unfold; rewrite ?Hc; try done.
  destruct (negb _); cbn; by rewrite ?Hc.
Qed.

(** One operation keeps the tracked numbers distinct. *)
Lemma ctx_step_NoDup c op w :
  NoDup (tracked c w) -> NoDup (tracked c (after (ctx_step c op) w)).
Proof.
  intros Hnd. unfold tracked in *.
  destruct (objects w !! c) as [ctx|] eqn:Hc.
  - destruct op; cbn [ctx_step].
    + rewrite objects_after_bind by (intros ?; apply keeps_ret).
      destruct (pyrel.isValidDimension rows cols) eqn:Hdim.
      * destruct (new_registered c rows cols bits w ctx Hc Hdim) as [-> _].
        rewrite lookup_insert_eq. cbn. by apply NoDup_keys_dict_set.
      * unfold after. rewrite new_rejects by done. cbn. by rewrite Hc.
    + rewrite objects_after_bind by (intros ?; apply keeps_ret).
      unfold after, pyrel._add. py_unfold. rewrite Hc. cbn.
      rewrite lookup_insert_eq. cbn. by apply NoDup_keys_dict_set.
    + destruct (pyrel.dict_get (ref_of toDelete) (PyrelContext.relations ctx))
        as [rel|] eqn:Hk.
      * destruct (N.eq_dec rel 0%N) as [->|Hnz].
        -- unfold after. rewrite (delete_skips c toDelete w ctx Hc) by auto.
           cbn. by rewrite Hc.
        -- unfold after. rewrite (delete_runs c toDelete w ctx rel Hc Hk Hnz).
           cbn. rewrite lookup_insert_eq. cbn. by apply NoDup_keys_dict_del.
      * unfold after. rewrite (delete_skips c toDelete w ctx Hc) by auto.
        cbn. by rewrite Hc.
    + unfold after. rewrite (clean_runs c w ctx Hc). cbn.
      rewrite lookup_insert_eq. cbn. apply NoDup_nil_2.
  - rewrite (ctx_step_absent c op w Hc). by rewrite Hc.
Qed.

(** X22: along every sequence of new, _add, delete and clean, a mapping
    whose numbers are distinct and at most the counter stays so: in every
    world the sequence goes through, no number is tracked twice and none
    is above the counter. *)
Theorem tracked_numbers_stay_distinct c ops w :
  NoDup (tracked c w) ->
  counter_covers c w ->
  Forall (fun w' => NoDup (tracked c w') /\ counter_covers c w') (history c ops w).
Proof.
  revert w. induction ops as [|op ops IH]; intros w Hnd Hcov; cbn [history].
  - by repeat constructor.
  - constructor; [done|]. apply IH.
    + by apply ctx_step_NoDup.
    + by apply (ctx_step_evolves c op w).
Qed.

End MappingInvariant.

(** ** The text of an exception, and the prototypes *)

Section Text.

Lemma substring_append_prefix (s t : string) :
  substring 0 (String.length s) (String.append s t) = s.
Proof.
  induction s as [|a s IH]; simpl.
  - by destruct t.
  - by rewrite IH.
Qed.

Lemma drop_last_period (s : string) : drop_last (String.append s ".") = s.
Proof.
  unfold drop_last.
  assert (String.length (String.append s ".") = S (String.length s)) as ->.
  { induction s as [|a s IH]; simpl; [done|]. by rewrite IH. }
  replace (S (String.length s) - 1)%nat with (String.length s) by lia.
  apply substring_append_prefix.
Qed.

(** X23: the text of a PyrelException is the class name, a colon and a
    space, and the message exactly as given: the period that the format
    adds is the character that the slice removes, whatever the message. *)
Theorem PyrelException_text msg :
  PyrelException__str__ msg = String.append "PyrelException: " msg.
Proof.
  unfold PyrelException__str__.
  change (String.append "PyrelException" (String.append ": " (String.append msg ".")))
    with (String.append (String.append "PyrelException: " msg) ".").
  apply drop_last_period.
Qed.

Lemma wrap_func_fold (args : list param) atypes aflags :
  fold_left
    (fun '(atypes, aflags) arg =>
       (atypes ++ [Some (p_type arg)], aflags ++ [(1, p_name arg)]))
    args (atypes, aflags) =
  (atypes ++ ((fun a => Some (p_type a)) <$> args),
   aflags ++ ((fun a => (1, p_name a)) <$> args)).
Proof.
  revert atypes aflags. induction args as [|a args IH]; intros atypes aflags; cbn.
  - by rewrite !app_nil_r.
  - by rewrite IH, <- !app_assoc.
Qed.

(** X24: wrap_func declares every parameter as an input: the flags are one
    pair (1, name) per declaration, in the order of the declarations, and
    nothing of a declaration beyond its name and type is read; the types
    are the declared types in the same order, or None alone when there is
    no parameter. *)
Theorem wrap_func_declares_inputs (args : list param) :
  (wrap_func_lists args).2 = (fun a => (1, p_name a)) <$> args /\
  (wrap_func_lists args).1 =
    match args with
    | [] => [None]
    | _ => (fun a => Some (p_type a)) <$> args
    end /\
  (forall more, wrap_func_lists ((fun a => Param (p_name a) (p_type a) more) <$> args)
                = wrap_func_lists args).
Proof.
  assert (forall l, wrap_func_lists l =
            match l with
            | [] => ([None], [])
            | _ => ((fun a => Some (p_type a)) <$> l, (fun a => (1, p_name a)) <$> l)
            end) as Hw.
  { intros [|a l]; [done|]. unfold wrap_func_lists. by rewrite wrap_func_fold. }
  split_and!.
  - rewrite Hw. by destruct args.
  - rewrite Hw. by destruct args.
  - intros more. rewrite !Hw. destruct args as [|a args]; [done|]. cbn.
    by rewrite <- !list_fmap_compose.
Qed.

End Text.

(** ** Instances of the further properties *)

Section MoreInstances.
#[local] Existing Instance Kure2.engine.

Lemma context_of_world_1x1 : objects world_1x1 !! 0%N = Some context_1x1.
Proof. vm_compute. reflexivity. Qed.

Lemma context_of_world_new : objects world_new_context !! 0%N = Some context_new.
Proof. vm_compute. reflexivity. Qed.

Lemma context_of_world_three : objects world_three !! 0%N = Some context_three.
Proof. vm_compute. reflexivity. Qed.

Lemma tracked_world_1x1_distinct : NoDup (tracked 0 world_1x1).
Proof. vm_compute. apply NoDup_singleton. Qed.

(** delete(7) where only number 1 is tracked. *)
Lemma delete_untracked_is_noop_at_7 :
  pyrel.delete 0 (inr 7) world_1x1 = (Ok tt, world_1x1).
Proof.
  apply (delete_untracked_is_noop 0 (inr 7) world_1x1 context_1x1
           context_of_world_1x1).
  left. reflexivity.
Defined.

(** delete of the 1x1 relation: its number is tracked no more. *)
Lemma delete_tracked_at_1x1 :
  handle_of 0 (ref_of (inl relation_1x1))
    (after (pyrel.delete 0 (inl relation_1x1)) world_1x1) = None.
Proof.
  assert (2%N <> 0%N) as Hnz by discriminate.
  pose proof (delete_tracked 0 (inl relation_1x1) world_1x1 context_1x1 2
                context_of_world_1x1 tracked_world_1x1_distinct eq_refl Hnz) as H.
  cbv zeta in H. destruct H as (_ & _ & _ & H & _). exact H.
Defined.

(** The 1x1 relation deleted twice. *)
Lemma delete_twice_at_1x1 :
  (pyrel.delete 0 (inl relation_1x1);; pyrel.delete 0 (inl relation_1x1)) world_1x1
    = pyrel.delete 0 (inl relation_1x1) world_1x1.
Proof.
  exact (delete_twice 0 (inl relation_1x1) world_1x1 tracked_world_1x1_distinct).
Defined.

(** clean of a context with three relations: three destructions. *)
Lemma clean_destroys_all_once_at_three :
  calls (after (pyrel.clean 0) world_three) =
    calls world_three ++ (kure._rel_destroy <$> rev (handles 0 world_three)).
Proof.
  pose proof (clean_destroys_all_once 0 world_three context_three
                context_of_world_three) as H.
  cbv zeta in H. destruct H as (_ & H & _). exact H.
Defined.

(** The finalizer of that context. *)
Lemma context_finalizer_releases_last_at_three :
  objects (after (pyrel.PyrelContext__del__ 0) world_three) !! 0%N =
    Some (PyrelContext.Build 0 (PyrelContext.ref context_three) []).
Proof.
  pose proof (context_finalizer_releases_last 0 world_three context_three
                context_of_world_three) as H.
  cbv zeta in H. destruct H as (_ & _ & H). exact H.
Defined.

(** new(3, 5) in a context just created. *)
Lemma new_registers_its_result_at_3x5 :
  handle_of 0 (Relation.ref (Relation.Build 0 1 2 3 5))
    (after (pyrel.new 0 (PyInt 3) (PyInt 5) PyNone) world_new_context)
  = Some (Relation.rel (Relation.Build 0 1 2 3 5)).
Proof.
  assert (pyrel.new 0 (PyInt 3) (PyInt 5) PyNone world_new_context =
            (Ok (Relation.Build 0 1 2 3 5),
             after (pyrel.new 0 (PyInt 3) (PyInt 5) PyNone) world_new_context)) as Hrun
    by (vm_compute; reflexivity).
  destruct (new_registers_its_result 0 (PyInt 3) (PyInt 5) PyNone world_new_context
              context_new _ _ context_of_world_new Hrun) as (_ & _ & _ & H & _).
  exact H.
Defined.

(** new(1, 1, 5): the bits are not iterable. *)
Lemma new_registers_before_bits_at_5 :
  counter 0 (after (pyrel.new 0 (PyInt 1) (PyInt 1) (PyInt 5)) world_new_context)
    = PyrelContext.ref context_new + 1 /\
  outcome (pyrel.new 0 (PyInt 1) (PyInt 1) (PyInt 5)) world_new_context
    = Raise InvalidBitPair.
Proof.
  pose proof (new_registers_before_bits 0 (PyInt 1) (PyInt 1) (PyInt 5)
                world_new_context context_new context_of_world_new eq_refl) as H.
  cbv zeta in H. destruct H as (Hcount & _ & Hraise).
  split; [exact Hcount|]. apply Hraise; reflexivity.
Defined.

(** _add of a raw handle in a context just created. *)
Lemma _add_registers_at_new :
  outcome (pyrel._add 0 7) world_new_context = Ok (PyrelContext.ref context_new + 1).
Proof.
  pose proof (_add_registers 0 7 world_new_context context_new
                context_of_world_new) as H.
  cbv zeta in H. destruct H as (H & _). exact H.
Defined.

(** A second registration after the 1x1 relation. *)
Lemma registration_appends_at_1x1 :
  tracked 0 (after (pyrel._add 0 7) world_1x1)
    = tracked 0 world_1x1 ++ [PyrelContext.ref context_1x1 + 1].
Proof.
  assert (counter_covers 0 world_1x1) as Hcov
    by (vm_compute; repeat constructor; discriminate).
  destruct (registration_appends 0 world_1x1 context_1x1 context_of_world_1x1 Hcov)
    as [H _].
  exact (H 7%N).
Defined.

(** transpose of the 1x1 relation. *)
Lemma result_registered_at_1x1 :
  counter 0 (after (unop_method Transpose relation_1x1) world_1x1)
    = PyrelContext.ref context_1x1 + 1.
Proof.
  pose proof (result_registered_whatever_engine_says relation_1x1 world_1x1
                context_1x1 context_of_world_1x1 eq_refl) as H.
  cbv zeta in H. destruct H as [H _]. destruct (H Transpose) as [Hc _]. exact Hc.
Defined.

(** copy of the 1x1 relation. *)
Lemma copy_registers_duplicate_at_1x1 :
  exists res,
    outcome (pyrel.copy relation_1x1) world_1x1 = Ok res /\
    Relation.context res = Relation.context relation_1x1 /\
    Relation.ref res = PyrelContext.ref context_1x1 + 1 /\
    Relation.rel res = returned (kure._rel_new_copy (Relation.rel relation_1x1)) world_1x1.
Proof.
  pose proof (copy_registers_duplicate relation_1x1 world_1x1 context_1x1
                context_of_world_1x1) as H.
  cbv zeta in H. destruct H as [H _].
  destruct H as (res & H1 & H2 & H3 & H4 & _).
  - vm_compute. discriminate.
  - exists res. split_and!; assumption.
Defined.

(** Operations on the first of two contexts. *)
Lemma context_operations_are_local_at_two :
  objects (after (pyrel.clean 0) world_two_contexts) !! 1%N
    = objects world_two_contexts !! 1%N.
Proof.
  assert (1%N <> 0%N) as Hne by discriminate.
  destruct (context_operations_are_local 0 1 world_two_contexts Hne) as [H _].
  exact (H OpClean).
Defined.

(** Advancing by 1 + 2. *)
Lemma vector_next_additive_at_1_2 :
  pyrel.vector_next relation_1x1 (1 + 2) world_1x1 =
    (pyrel.vector_next relation_1x1 1;; pyrel.vector_next relation_1x1 2) world_1x1.
Proof.
  apply (vector_next_additive relation_1x1 1 2 world_1x1); lia.
Defined.

(** Two relations of one context. *)
Lemma isSuperset_is_isSubset_swapped_at_three :
  pyrel.isSuperset relation_a (PyRel relation_b) world_three
    = pyrel.isSubset relation_b (PyRel relation_a) world_three.
Proof.
  apply (isSuperset_is_isSubset_swapped relation_a relation_b world_three).
  reflexivity.
Defined.

(** Seven operations on a context just created. *)
Lemma tracked_numbers_stay_distinct_at_some_ops :
  Forall (fun w' => NoDup (tracked 0 w') /\ counter_covers 0 w')
    (history 0 some_ops world_new_context).
Proof.
  apply (tracked_numbers_stay_distinct 0 some_ops world_new_context).
  - vm_compute. apply NoDup_nil_2.
  - vm_compute. constructor.
Defined.

End MoreInstances.
